(** * The list-view pipeline of the advanced data table component

    A shallow embedding of the script part of the three variants of the
    Svelte component (search, sort, paginate, select, format), and the
    properties of the specification checked against it.

    - Component.svelte  : the fixture variant  (module [Fixture])
    - the API variant   : rows fetched through the host API (module [Api])
    - the provider variant : rows bound through a data provider
      (module [Provider])

    The derived stages (filter, sort, page, page window), [handleSort],
    [handleRowSelect] and [formatValue] are textually the same in the
    variants and are embedded once. *)

From Stdlib Require Import ZArith List String Ascii Bool Lia.
From Stdlib Require Import Sorting.Sorted Sorting.Permutation.
From Stdlib Require Import DecimalString.
From stdpp Require Import base decidable countable gmap sets strings.

Import ListNotations.
Local Open Scope string_scope.
Local Open Scope Z_scope.
Set Warnings "-register-all,-clear-no-such-hyp".

(** ** JavaScript values *)

Module JS.

(** The values a row field can hold.  A number is an integer-valued double
    in the safe range, carried as a [Z]; fractions, NaN and the infinities
    are outside the model (NaN appears only as the result [None] of
    [ToNumber]).  An array is carried by its elements. *)
Inductive value : Type :=
  | VUndefined
  | VNull
  | VBool (b : bool)
  | VNum (n : Z)
  | VStr (s : string)
  | VArr (l : list value).

(** A row is an object: its own properties in insertion order. *)
Definition Row : Type := list (string * value).

(** [row[col]]: the value of the property, [undefined] when absent. *)
Fixpoint get (r : Row) (col : string) : value :=
  match r with
  | [] => VUndefined
  | (k, v) :: r' => if String.eqb k col then v else get r' col
  end.

(** ToBoolean: the falsy values are undefined, null, false, 0 and the
    empty string. *)
Definition truthy (v : value) : bool :=
  match v with
  | VUndefined | VNull => false
  | VBool b => b
  | VNum n => negb (n =? 0)
  | VStr s => negb (String.eqb s "")
  | VArr _ => true
  end.

(** [a || b] *)
Definition or_else (a b : value) : value := if truthy a then a else b.

(** Number to string, for the integers of the model. *)
Definition Number_toString (n : Z) : string :=
  NilZero.string_of_int (Z.to_int n).

(** [Array.prototype.join]. *)
Fixpoint join (sep : string) (l : list string) : string :=
  match l with
  | [] => ""
  | [s] => s
  | s :: l' => (s ++ sep ++ join sep l')%string
  end.

(** ToString, as called by [String(v)]; an array is joined with commas, its
    undefined and null elements printing as the empty string. *)
Fixpoint ToString (v : value) : string :=
  match v with
  | VUndefined => "undefined"
  | VNull => "null"
  | VBool true => "true"
  | VBool false => "false"
  | VNum n => Number_toString n
  | VStr s => s
  | VArr l =>
      join "," (map (fun e => match e with
                              | VUndefined | VNull => ""
                              | _ => ToString e
                              end) l)
  end.

(** [arr.join(sep)] on a value that is an array. *)
Definition Array_join (sep : string) (l : list value) : string :=
  join sep (map (fun e => match e with
                          | VUndefined | VNull => ""
                          | _ => ToString e
                          end) l).

(** [String.prototype.toLowerCase] on the ASCII letters. *)
Definition lower_ascii (c : ascii) : ascii :=
  let n := nat_of_ascii c in
  if ((65 <=? n) && (n <=? 90))%nat then ascii_of_nat (n + 32) else c.

Fixpoint toLowerCase (s : string) : string :=
  match s with
  | EmptyString => EmptyString
  | String c s' => String (lower_ascii c) (toLowerCase s')
  end.

(** [String.prototype.includes]: [t] occurs in [s] at some position. *)
Fixpoint includes (s t : string) : bool :=
  String.prefix t s ||
  match s with
  | EmptyString => false
  | String _ s' => includes s' t
  end.

(** ToNumber.  A string converts through the integer decimal literals
    (optional sign, digits, surrounding blanks; the empty string is 0);
    every other string is NaN here, the model having no fractions. *)
Definition is_blank (c : ascii) : bool :=
  let n := nat_of_ascii c in
  ((n =? 32) || ((9 <=? n) && (n <=? 13)))%nat.

Fixpoint trimStart (s : string) : string :=
  match s with
  | String c s' => if is_blank c then trimStart s' else s
  | EmptyString => EmptyString
  end.

Definition rev_string (s : string) : string :=
  string_of_list_ascii (rev (list_ascii_of_string s)).

Definition trim (s : string) : string :=
  rev_string (trimStart (rev_string (trimStart s))).

Fixpoint digits (acc : Z) (s : string) : option Z :=
  match s with
  | EmptyString => Some acc
  | String c s' =>
      let n := nat_of_ascii c in
      if ((48 <=? n) && (n <=? 57))%nat
      then digits (10 * acc + Z.of_nat (n - 48)) s'
      else None
  end.

Definition StringToNumber (s : string) : option Z :=
  match trim s with
  | EmptyString => Some 0
  | String "-" (String c r) => option_map Z.opp (digits 0 (String c r))
  | String "+" (String c r) => digits 0 (String c r)
  | t => digits 0 t
  end.

Definition ToNumber (v : value) : option Z :=
  match v with
  | VUndefined => None
  | VNull => Some 0
  | VBool b => Some (if b then 1 else 0)
  | VNum n => Some n
  | VStr s => StringToNumber s
  | VArr _ => StringToNumber (ToString v)
  end.

(** [a < b]: two strings (an array counts through its string) compare by
    code units, anything else through ToNumber, a NaN operand giving
    false. *)
Definition as_string (v : value) : option string :=
  match v with
  | VStr s => Some s
  | VArr _ => Some (ToString v)
  | _ => None
  end.

Definition lt (a b : value) : bool :=
  match as_string a, as_string b with
  | Some s, Some t => String.ltb s t
  | _, _ =>
      match ToNumber a, ToNumber b with
      | Some x, Some y => x <? y
      | _, _ => false
      end
  end.

(** [a > b] is [b < a]. *)
Definition gt (a b : value) : bool := lt b a.

(** [typeof v === 'number'] and [Array.isArray(v)]. *)
Definition is_number (v : value) : bool :=
  match v with VNum _ => true | _ => false end.

Definition isArray (v : value) : bool :=
  match v with VArr _ => true | _ => false end.

(** [Array.prototype.sort(comparefn)]: the sort is stable, an element
    staying in front of the later ones the comparator does not put before
    it.  (For a comparator that is not a consistent ordering the standard
    leaves the order to the engine; this is the order of a stable
    insertion.) *)
Section Sort.
Context {A : Type} (comparefn : A -> A -> Z).

Fixpoint insert (x : A) (l : list A) : list A :=
  match l with
  | [] => [x]
  | y :: l' => if comparefn x y <=? 0 then x :: l else y :: insert x l'
  end.

Definition Array_sort (l : list A) : list A := fold_right insert [] l.
End Sort.

(** [Array.prototype.slice(start, end)], with the relative indices of the
    standard: a negative index counts from the end, and both are clamped
    into the array. *)
Definition rel_index (len i : Z) : Z :=
  if i <? 0 then Z.max (len + i) 0 else Z.min i len.

Definition slice {A : Type} (l : list A) (start final : Z) : list A :=
  let len := Z.of_nat (length l) in
  let k := rel_index len start in
  let e := rel_index len final in
  firstn (Z.to_nat (e - k)) (skipn (Z.to_nat k) l).

(** [JSON.stringify] of a row. *)
Definition hex_digit (n : nat) : ascii :=
  if (n <? 10)%nat then ascii_of_nat (48 + n) else ascii_of_nat (87 + n).

Definition quote_char (c : ascii) : string :=
  let n := nat_of_ascii c in
  if (n =? 34)%nat then String "\" (String c "")
  else if (n =? 92)%nat then String "\" (String c "")
  else if (n =? 8)%nat then "\b"
  else if (n =? 9)%nat then "\t"
  else if (n =? 10)%nat then "\n"
  else if (n =? 12)%nat then "\f"
  else if (n =? 13)%nat then "\r"
  else if (n <? 32)%nat
       then ("\u00" ++ String (hex_digit (n / 16)) (String (hex_digit (n mod 16)) ""))%string
  else String c "".

Fixpoint quote_body (s : string) : string :=
  match s with
  | EmptyString => EmptyString
  | String c s' => (quote_char c ++ quote_body s')%string
  end.

Definition dquote : string := String (ascii_of_nat 34) "".

Definition QuoteJSONString (s : string) : string :=
  (dquote ++ quote_body s ++ dquote)%string.

Fixpoint JSON_value (v : value) : string :=
  match v with
  | VUndefined | VNull => "null"
  | VBool true => "true"
  | VBool false => "false"
  | VNum n => Number_toString n
  | VStr s => QuoteJSONString s
  | VArr l => ("[" ++ join "," (map JSON_value l) ++ "]")%string
  end.

Definition JSON_property (kv : string * value) : option string :=
  match snd kv with
  | VUndefined => None
  | v => Some (QuoteJSONString (fst kv) ++ ":" ++ JSON_value v)%string
  end.

Definition JSON_stringify (r : Row) : string :=
  ("{" ++ join "," (omap JSON_property r) ++ "}")%string.

(** *** Equality and counting of values

    A set of row identities (a JavaScript [Set]) compares its elements
    with SameValueZero, which on the values of the model is equality.
    (An array in a [Set] is compared by reference; the model compares
    its elements.) *)
Section value_ind.
Variable P : value -> Prop.
Hypothesis Hundef : P VUndefined.
Hypothesis Hnull : P VNull.
Hypothesis Hbool : forall b, P (VBool b).
Hypothesis Hnum : forall n, P (VNum n).
Hypothesis Hstr : forall s, P (VStr s).
Hypothesis Harr : forall l, Forall P l -> P (VArr l).

Fixpoint value_nested_ind (v : value) : P v :=
  match v with
  | VUndefined => Hundef
  | VNull => Hnull
  | VBool b => Hbool b
  | VNum n => Hnum n
  | VStr s => Hstr s
  | VArr l =>
      Harr l ((fix go (l : list value) : Forall P l :=
                 match l with
                 | [] => @List.Forall_nil value P
                 | x :: l' => @List.Forall_cons value P x l' (value_nested_ind x) (go l')
                 end) l)
  end.
End value_ind.

Fixpoint value_encode (v : value) : gen_tree (bool + Z + string) :=
  match v with
  | VUndefined => GenNode 0 []
  | VNull => GenNode 1 []
  | VBool b => GenLeaf (inl (inl b))
  | VNum n => GenLeaf (inl (inr n))
  | VStr s => GenLeaf (inr s)
  | VArr l => GenNode 2 (map value_encode l)
  end.

Fixpoint value_decode (t : gen_tree (bool + Z + string)) : value :=
  match t with
  | GenNode 0 _ => VUndefined
  | GenNode 1 _ => VNull
  | GenLeaf (inl (inl b)) => VBool b
  | GenLeaf (inl (inr n)) => VNum n
  | GenLeaf (inr s) => VStr s
  | GenNode _ l => VArr (map value_decode l)
  end.

Lemma value_decode_encode (v : value) : value_decode (value_encode v) = v.
Proof.
  induction v as [| | b | n | s | l IH] using value_nested_ind; simpl; try reflexivity.
  f_equal. induction IH as [| x l Hx _ IHl]; simpl; [reflexivity |].
  now rewrite Hx, IHl.
Qed.

#[global] Instance value_eq_dec : EqDecision value.
Proof.
  intros x y. destruct (decide (value_encode x = value_encode y)) as [H | H].
  - left. rewrite <- (value_decode_encode x), <- (value_decode_encode y).
    now rewrite H.
  - right. intros ->. now apply H.
Defined.

#[global] Instance value_countable : Countable value :=
  inj_countable' value_encode value_decode value_decode_encode.

End JS.

Import JS.

(** ** State and props of the component *)

Inductive Direction : Type := asc | desc.

Record SortConfig : Type := { key : option string; direction : Direction }.

Record ColumnInfo : Type := { type : option string; name : option string }.

(** A schema object: column name to column description. *)
Definition Schema : Type := list (string * ColumnInfo).

(** The [let] variables of the script ([null] is [None], or [VNull] for the
    open action menu, which holds a row identity). *)
Record State : Type := {
  currentPage : Z;
  searchTerm : string;
  sortConfig : SortConfig;
  selectedRows : gset value;
  showActionMenu : value;
  loading : bool;
  error : option string;
  allRows : list Row;
  tableSchema : Schema
}.

Definition initial : State :=
  {| currentPage := 1; searchTerm := ""; sortConfig := {| key := None; direction := asc |};
     selectedRows := ∅; showActionMenu := VNull; loading := false; error := None;
     allRows := []; tableSchema := [] |}.

Definition set_currentPage (v : Z) (s : State) : State :=
  {| currentPage := v; searchTerm := searchTerm s; sortConfig := sortConfig s;
     selectedRows := selectedRows s; showActionMenu := showActionMenu s;
     loading := loading s; error := error s; allRows := allRows s;
     tableSchema := tableSchema s |}.

Definition set_selectedRows (v : gset value) (s : State) : State :=
  {| currentPage := currentPage s; searchTerm := searchTerm s; sortConfig := sortConfig s;
     selectedRows := v; showActionMenu := showActionMenu s;
     loading := loading s; error := error s; allRows := allRows s;
     tableSchema := tableSchema s |}.

Definition set_sortConfig (v : SortConfig) (s : State) : State :=
  {| currentPage := currentPage s; searchTerm := searchTerm s; sortConfig := v;
     selectedRows := selectedRows s; showActionMenu := showActionMenu s;
     loading := loading s; error := error s; allRows := allRows s;
     tableSchema := tableSchema s |}.

Definition set_loading (v : bool) (s : State) : State :=
  {| currentPage := currentPage s; searchTerm := searchTerm s; sortConfig := sortConfig s;
     selectedRows := selectedRows s; showActionMenu := showActionMenu s;
     loading := v; error := error s; allRows := allRows s;
     tableSchema := tableSchema s |}.

Definition set_error (v : option string) (s : State) : State :=
  {| currentPage := currentPage s; searchTerm := searchTerm s; sortConfig := sortConfig s;
     selectedRows := selectedRows s; showActionMenu := showActionMenu s;
     loading := loading s; error := v; allRows := allRows s;
     tableSchema := tableSchema s |}.

Definition set_allRows (v : list Row) (s : State) : State :=
  {| currentPage := currentPage s; searchTerm := searchTerm s; sortConfig := sortConfig s;
     selectedRows := selectedRows s; showActionMenu := showActionMenu s;
     loading := loading s; error := error s; allRows := v;
     tableSchema := tableSchema s |}.

Definition set_tableSchema (v : Schema) (s : State) : State :=
  {| currentPage := currentPage s; searchTerm := searchTerm s; sortConfig := sortConfig s;
     selectedRows := selectedRows s; showActionMenu := showActionMenu s;
     loading := loading s; error := error s; allRows := allRows s;
     tableSchema := v |}.

(** The props that configure the pipeline. *)
Record Props : Type := {
  itemsPerPage : Z;
  searchable : bool;
  sortable : bool;
  selectable : bool;
  showActions : bool;
  columns : list string
}.

(** ** The derived stages *)

(** One column of one row against the search term:
    [String(item[col] || '').toLowerCase().includes(searchTerm.toLowerCase())]. *)
Definition cell_matches (searchTerm : string) (item : Row) (col : string) : bool :=
  includes (toLowerCase (ToString (or_else (get item col) (VStr ""))))
           (toLowerCase searchTerm).

(** [filteredData]: the callback of [allRows.filter]. *)
Definition filter_callback (searchTerm : string) (availableColumns : list string)
    (item : Row) : bool :=
  if negb (truthy (VStr searchTerm)) then true
  else existsb (cell_matches searchTerm item) availableColumns.

Definition filteredData (allRows : list Row) (searchTerm : string)
    (availableColumns : list string) : list Row :=
  List.filter (filter_callback searchTerm availableColumns) allRows.

(** [sortedData]: the comparator handed to [sort], and the stage. *)
Definition comparator (k : string) (d : Direction) (a b : Row) : Z :=
  let aValue := get a k in
  let bValue := get b k in
  if lt aValue bValue then (match d with asc => -1 | desc => 1 end)
  else if gt aValue bValue then (match d with asc => 1 | desc => -1 end)
  else 0.

Definition sortedData (filteredData : list Row) (sortConfig : SortConfig) : list Row :=
  match key sortConfig with
  | Some k =>
      if truthy (VStr k)
      then Array_sort (comparator k (direction sortConfig)) filteredData
      else filteredData
  | None => filteredData
  end.

(** [Math.ceil(n / p)] on integers, for [p] other than 0 (the division by
    0 of the source gives NaN or Infinity, which the model does not have). *)
Definition ceil_div (n p : Z) : Z := - ((- n) / p).

Definition totalPages (sortedData : list Row) (itemsPerPage : Z) : Z :=
  ceil_div (Z.of_nat (length sortedData)) itemsPerPage.

Definition startIndex (currentPage itemsPerPage : Z) : Z :=
  (currentPage - 1) * itemsPerPage.

Definition paginatedData (sortedData : list Row) (currentPage itemsPerPage : Z)
    : list Row :=
  slice sortedData (startIndex currentPage itemsPerPage)
        (startIndex currentPage itemsPerPage + itemsPerPage).

(** The page-number buttons:
    [Array.from({length: Math.min(5, totalPages)}, (_, i) => ...)]. *)
Definition page_button (totalPages currentPage i : Z) : Z :=
  if totalPages <=? 5 then i + 1
  else if currentPage <=? 3 then i + 1
  else if currentPage >=? totalPages - 2 then totalPages - 4 + i
  else currentPage - 2 + i.

Definition page_buttons (totalPages currentPage : Z) : list Z :=
  map (fun i => page_button totalPages currentPage (Z.of_nat i))
      (seq 0 (Z.to_nat (Z.min 5 totalPages))).

(** ** Event handlers shared by the variants *)

Definition handleSort (sortable : bool) (sortConfig : SortConfig) (k : string)
    : SortConfig :=
  if negb sortable then sortConfig
  else {| key := Some k;
          direction :=
            match key sortConfig, direction sortConfig with
            | Some k', asc => if String.eqb k' k then desc else asc
            | _, _ => asc
            end |}.

Definition handleRowSelect (selectable : bool) (selectedRows : gset value)
    (rowId : value) : gset value :=
  if negb selectable then selectedRows
  else if decide (rowId ∈ selectedRows) then selectedRows ∖ {[ rowId ]}
  else selectedRows ∪ {[ rowId ]}.

(** The page buttons and the Previous and Next buttons assign [currentPage]
    and nothing else. *)
Definition goToPage (pageNum : Z) (s : State) : State := set_currentPage pageNum s.

Definition previousPage (s : State) : State :=
  set_currentPage (Z.max 1 (currentPage s - 1)) s.

Definition nextPage (totalPages : Z) (s : State) : State :=
  set_currentPage (Z.min totalPages (currentPage s + 1)) s.

(** ** Value formatting *)

(** What the host's locale decides: how a number and a date print, and
    which strings parse as dates ([None] is an invalid date). *)
Record Locale : Type := {
  Number_toLocaleString : Z -> string;
  Date_parse : string -> option Z;
  Date_toLocaleDateString : Z -> string
}.

(** [new Date(v)]: the time value, [None] when it is NaN.  A string is
    parsed, anything else goes through ToNumber and is clipped to the
    range of a date. *)
Definition Date_new (L : Locale) (v : value) : option Z :=
  match as_string v with
  | Some s => Date_parse L s
  | None =>
      match ToNumber v with
      | Some t => if Z.abs t <=? 8640000000000000 then Some t else None
      | None => None
      end
  end.

Definition toLocaleDateString (L : Locale) (tv : option Z) : string :=
  match tv with
  | Some t => Date_toLocaleDateString L t
  | None => "Invalid Date"
  end.

Definition formatValue (L : Locale) (v : value) (ty : string) : value :=
  match v with
  | VNull | VUndefined => VStr ""
  | _ =>
      if String.eqb ty "datetime" then VStr (toLocaleDateString L (Date_new L v))
      else if String.eqb ty "number" then
        match v with
        | VNum n => VStr (Number_toLocaleString L n)
        | _ => v
        end
      else if String.eqb ty "boolean" then
        VStr (if truthy v then "Yes" else "No")
      else if String.eqb ty "options" then
        match v with
        | VArr l => VStr (Array_join ", " l)
        | _ => v
        end
      else VStr (ToString v)
  end.

(** [tableSchema[column]?.type || 'text'] *)
Fixpoint schema_get (sch : Schema) (column : string) : option ColumnInfo :=
  match sch with
  | [] => None
  | (k, c) :: sch' => if String.eqb k column then Some c else schema_get sch' column
  end.

Definition getColumnType (tableSchema : Schema) (column : string) : string :=
  match schema_get tableSchema column with
  | Some {| type := Some t |} => if String.eqb t "" then "text" else t
  | _ => "text"
  end.

(** [tableSchema[key]?.type], the empty string standing for a missing one
    (only its comparison with two type names is used). *)
Definition getColumnType_raw (tableSchema : Schema) (k : string) : string :=
  match schema_get tableSchema k with
  | Some {| type := Some t |} => t
  | _ => ""
  end.

(** ** Statements of an asynchronous handler

    A handler is run to completion on the state: a statement gives the
    state it leaves and the exception it raised, if any; the assignments
    made before a throw stay. *)

Record Error : Type := { message : string }.

Definition Stmt : Type := State -> State * option Error.

Definition skip : Stmt := fun s => (s, None).
Definition assign (f : State -> State) : Stmt := fun s => (f s, None).
Definition throw (e : Error) : Stmt := fun s => (s, Some e).

Definition seq_stmt (a b : Stmt) : Stmt :=
  fun s => match a s with
           | (s', None) => b s'
           | (s', Some e) => (s', Some e)
           end.

Definition try_catch (body : Stmt) (handler : Error -> Stmt) : Stmt :=
  fun s => match body s with
           | (s', None) => (s', None)
           | (s', Some e) => handler e s'
           end.

Definition try_finally (body finalizer : Stmt) : Stmt :=
  fun s => match body s with
           | (s', None) => finalizer s'
           | (s', Some e) =>
               match finalizer s' with
               | (s'', None) => (s'', Some e)
               | (s'', Some e') => (s'', Some e')
               end
           end.

Declare Scope stmt_scope.
Delimit Scope stmt_scope with stmt.
Bind Scope stmt_scope with Stmt.
Notation "a ;; b" := (seq_stmt a b)
  (at level 100, b at level 200, right associativity) : stmt_scope.

(** What a call into the host comes back with. *)
Inductive Result (T : Type) : Type :=
  | Resolves (v : T)
  | Rejects (e : Error).
Arguments Resolves {T} v.
Arguments Rejects {T} e.

Definition await {T : Type} (r : Result T) (k : T -> Stmt) : Stmt :=
  match r with
  | Resolves v => k v
  | Rejects e => throw e
  end.

(** The shapes of a response the handlers tell apart: an object with a
    [rows] or a [data] array, a bare array, or anything else. *)
Inductive Response : Type :=
  | RObject (rows data : option (list Row))
  | RArray (l : list Row)
  | RUndefined.

Record HostAPI : Type := {
  searchTable : Result Response;
  fetchDatasource : Result Response;
  fetchTableDefinition : Result (option Schema)
}.

(** The surroundings of one run of [fetchData]: which props are set, what
    the host API answers, and what the [onRefresh] callback does
    ([Resolves tt]: it returns). *)
Record Host : Type := {
  datasource : bool;
  table : option (option Schema);
  API : option HostAPI;
  onRefresh : option (Result unit)
}.

Definition call_onRefresh (h : Host) : Stmt :=
  match onRefresh h with
  | Some r => await r (fun _ => skip)
  | None => skip
  end.

(** [err.message || 'Failed to fetch data'] *)
Definition error_text (e : Error) : string :=
  if truthy (VStr (message e)) then message e else "Failed to fetch data".

(** Running a handler: the state when it has completed. *)
Definition run (c : Stmt) (s : State) : State := fst (c s).

(** ** Column labels and the action menu *)

(** [String.prototype.toUpperCase] on an ASCII letter, and the test of the
    class [A-Z] of the regular expression. *)
Definition upper_ascii (c : ascii) : ascii :=
  let n := nat_of_ascii c in
  if ((97 <=? n) && (n <=? 122))%nat then ascii_of_nat (n - 32) else c.

Definition is_capital (c : ascii) : bool :=
  let n := nat_of_ascii c in ((65 <=? n) && (n <=? 90))%nat.

(** [s.replace(/([A-Z])/g, ' $1')]: a blank in front of every capital. *)
Fixpoint space_capitals (s : string) : string :=
  match s with
  | EmptyString => EmptyString
  | String c s' =>
      if is_capital c then String " " (String c (space_capitals s'))
      else String c (space_capitals s')
  end.

(** [column.charAt(0).toUpperCase() + column.slice(1).replace(...)] *)
Definition derived_label (column : string) : string :=
  match column with
  | EmptyString => EmptyString
  | String c rest => String (upper_ascii c) (space_capitals rest)
  end.

(** [tableSchema[column]?.name || derived label] *)
Definition getColumnLabel (tableSchema : Schema) (column : string) : string :=
  match schema_get tableSchema column with
  | Some {| name := Some n |} => if truthy (VStr n) then n else derived_label column
  | _ => derived_label column
  end.

(** The blanks of a string taken out. *)
Fixpoint remove_blanks (s : string) : string :=
  match s with
  | EmptyString => EmptyString
  | String c s' =>
      if Ascii.eqb c " " then remove_blanks s' else String c (remove_blanks s')
  end.

(** The trigger of a row's action menu:
    [showActionMenu = showActionMenu === id ? null : id], and the test
    [showActionMenu === id] that shows the menu of a row. *)
Definition toggleActionMenu (showActionMenu id : value) : value :=
  if bool_decide (showActionMenu = id) then VNull else id.

Definition menu_open (showActionMenu id : value) : bool :=
  bool_decide (showActionMenu = id).

(** The pagination bar of Component.svelte: [{#if totalPages > 1}] inside
    the table block [{#if !loading}]. *)
Definition pagination_shown (loading : bool) (totalPages : Z) : bool :=
  negb loading && (1 <? totalPages).

(** ** The fixture variant (Component.svelte) *)

Module Fixture.

(** The fixture rows of the source. *)
Definition dummyData : list Row :=
  [
    [ ("_id", VStr "041d45cd-f8c7-48cf-8096-d80e1007a654");
      ("customerid", VStr "041d45cd-f8c7-48cf-8096-d80e1007a654");
      ("firstname", VStr "den");
      ("lastname", VStr "deni");
      ("email", VStr "den@gmail.com");
      ("phonenumber", VStr "999000000");
      ("nationalid", VStr "TRTdjwey");
      ("isconsent", VBool true);
      ("created_at", VStr "2025-07-29T11:36:10.219Z");
      ("datecreated", VStr "2025-08-04T13:59:36.315Z");
      ("updated_at", VStr "2025-08-04T13:59:36.315Z") ];
    [ ("_id", VStr "10320437-b0a8-47a7-9735-903b983ea580");
      ("customerid", VStr "10320437-b0a8-47a7-9735-903b983ea580");
      ("firstname", VStr "try");
      ("lastname", VStr "ken");
      ("email", VStr "try@gmail.com");
      ("phonenumber", VStr "266000000000");
      ("nationalid", VStr "hg72nk94");
      ("isconsent", VBool true);
      ("created_at", VStr "2025-07-28T07:55:33.517Z");
      ("datecreated", VStr "2025-08-04T10:07:00.995Z");
      ("updated_at", VStr "2025-08-04T10:07:00.995Z") ];
    [ ("_id", VStr "218ff501-6eb4-4faf-a086-6f4ee030ea66");
      ("customerid", VStr "218ff501-6eb4-4faf-a086-6f4ee030ea66");
      ("firstname", VStr "try");
      ("lastname", VStr "Noel");
      ("email", VStr "try@gmail.com");
      ("phonenumber", VStr "266000000000");
      ("nationalid", VStr "WHTh632j");
      ("isconsent", VBool true);
      ("created_at", VStr "2025-07-28T07:46:16.994Z");
      ("datecreated", VStr "2025-08-04T10:06:25.946Z");
      ("updated_at", VStr "2025-08-04T10:06:25.946Z") ];
    [ ("_id", VStr "23cccea2-6456-46a2-92ed-cb94e73beedb");
      ("customerid", VStr "23cccea2-6456-46a2-92ed-cb94e73beedb");
      ("firstname", VStr "ken");
      ("lastname", VStr "dffd");
      ("email", VStr "ken@gmail.com");
      ("phonenumber", VStr "4989457");
      ("nationalid", VStr "fdf");
      ("isconsent", VBool true);
      ("created_at", VStr "2025-08-04T00:36:21.815Z");
      ("datecreated", VStr "2025-08-04T08:24:50.533Z");
      ("updated_at", VStr "2025-08-04T08:24:50.533Z") ];
    [ ("_id", VStr "285c550a-794e-409d-92f7-d29027dbfad2");
      ("customerid", VStr "285c550a-794e-409d-92f7-d29027dbfad2");
      ("firstname", VStr "ken");
      ("lastname", VStr "Feri");
      ("email", VStr "ken@gmail.com");
      ("phonenumber", VStr "26600000000000");
      ("nationalid", VStr "Hkslf8348");
      ("isconsent", VBool true);
      ("created_at", VStr "2025-08-04T08:06:44.282Z");
      ("datecreated", VStr "2025-08-04T08:25:45.908Z");
      ("updated_at", VStr "2025-08-04T08:25:45.908Z") ];
    [ ("_id", VStr "3df6db58-a5d0-4ce9-b104-add38fa54e4e");
      ("customerid", VStr "3df6db58-a5d0-4ce9-b104-add38fa54e4e");
      ("firstname", VStr "try");
      ("lastname", VStr "junior");
      ("email", VStr "try@gmail.com");
      ("phonenumber", VStr "100000000000");
      ("nationalid", VStr "rrrrrrrrr");
      ("isconsent", VBool true);
      ("created_at", VStr "2025-07-29T04:19:04.544Z");
      ("datecreated", VStr "2025-08-04T10:06:43.816Z");
      ("updated_at", VStr "2025-08-04T10:06:43.816Z") ];
    [ ("_id", VStr "4293c7ce-b8f7-4498-908e-f2e920e9bb23");
      ("customerid", VStr "4293c7ce-b8f7-4498-908e-f2e920e9bb23");
      ("firstname", VStr "Peter");
      ("lastname", VStr "parker");
      ("email", VStr "pp@gmail.com");
      ("phonenumber", VStr "266000000000000");
      ("nationalid", VStr "WH623hjs");
      ("isconsent", VBool false);
      ("created_at", VStr "2025-07-28T07:56:23.103Z");
      ("datecreated", VStr "2025-07-28T07:56:23.103Z");
      ("updated_at", VStr "2025-07-28T07:56:23.103Z") ];
    [ ("_id", VStr "a0bc2862-6eeb-4574-81ee-d51ad24b6a59");
      ("customerid", VStr "a0bc2862-6eeb-4574-81ee-d51ad24b6a59");
      ("firstname", VStr "blue");
      ("lastname", VStr "color");
      ("email", VStr "bluecolor@gmail.com");
      ("phonenumber", VStr "883000000");
      ("nationalid", VStr "tyhigff");
      ("isconsent", VBool false);
      ("created_at", VStr "2025-07-29T04:27:02.788Z");
      ("datecreated", VStr "2025-07-29T04:27:02.788Z");
      ("updated_at", VStr "2025-07-29T04:27:02.788Z") ];
    [ ("_id", VStr "a951e7c0-f330-4368-9e87-9f51d8d68603");
      ("customerid", VStr "a951e7c0-f330-4368-9e87-9f51d8d68603");
      ("firstname", VStr "grace");
      ("lastname", VStr "banda");
      ("email", VStr "gracebanda@gmail.com");
      ("phonenumber", VStr "266000000000");
      ("nationalid", VStr "TYhk38hh");
      ("isconsent", VBool false);
      ("created_at", VStr "2025-07-28T07:57:16.364Z");
      ("datecreated", VStr "2025-07-28T07:57:16.364Z");
      ("updated_at", VStr "2025-07-28T07:57:16.364Z") ];
    [ ("_id", VStr "c0b5191d-954a-4b56-b55d-ada202622415");
      ("customerid", VStr "c0b5191d-954a-4b56-b55d-ada202622415");
      ("firstname", VStr "Henry");
      ("lastname", VStr "Sauzande");
      ("email", VStr "HS@gmail.com");
      ("phonenumber", VStr "266000000000");
      ("nationalid", VStr "GRR67gg78");
      ("isconsent", VBool true);
      ("created_at", VStr "2025-07-30T08:13:21.100Z");
      ("datecreated", VStr "2025-07-30T08:13:55.709Z");
      ("updated_at", VStr "2025-07-30T08:13:55.709Z") ]
  ].

Definition customerSchema : Schema :=
  [ ("customerid", {| type := Some "text"; name := Some "Customer ID" |});
    ("firstname", {| type := Some "text"; name := Some "First Name" |});
    ("lastname", {| type := Some "text"; name := Some "Last Name" |});
    ("email", {| type := Some "text"; name := Some "Email" |});
    ("phonenumber", {| type := Some "text"; name := Some "Phone Number" |});
    ("nationalid", {| type := Some "text"; name := Some "National ID" |});
    ("isconsent", {| type := Some "boolean"; name := Some "Consent" |});
    ("created_at", {| type := Some "datetime"; name := Some "Created At" |});
    ("datecreated", {| type := Some "datetime"; name := Some "Date Created" |});
    ("updated_at", {| type := Some "datetime"; name := Some "Updated At" |}) ].

Definition availableColumns (columns : list string) : list string :=
  if (0 <? length columns)%nat then columns
  else List.filter
         (fun k => negb (String.prefix "_" k) && negb (String.eqb k "customerid"))
         (map fst customerSchema).

Definition getRowId (row : Row) : value :=
  or_else (or_else (or_else (or_else (get row "_id") (get row "id"))
                            (get row "customerid"))
                   (get row "_rev"))
          (VStr (JSON_stringify row)).

Definition handleSelectAll (selectable : bool) (selectedRows : gset value)
    (paginatedData : list Row) : gset value :=
  if negb selectable then selectedRows
  else if (size selectedRows =? length paginatedData)%nat
          && (0 <? length paginatedData)%nat
       then ∅
       else list_to_set (map getRowId paginatedData).

(** The checkbox of a row, and the one of the header. *)
Definition row_checked (selectedRows : gset value) (row : Row) : bool :=
  bool_decide (getRowId row ∈ selectedRows).

Definition header_checked (selectedRows : gset value) (paginatedData : list Row)
    : bool :=
  (size selectedRows =? length paginatedData)%nat && (0 <? length paginatedData)%nat.

Definition use_dummyData : Stmt :=
  (assign (set_allRows dummyData) ;; assign (set_tableSchema customerSchema))%stmt.

Definition initializeData (h : Host) : Stmt :=
  (use_dummyData ;;
   assign (set_loading false) ;;
   assign (set_error None) ;;
   assign (set_currentPage 1) ;;
   assign (set_selectedRows ∅) ;;
   call_onRefresh h)%stmt.

Definition store_response (response : Response) : Stmt :=
  match response with
  | RObject (Some rows) _ => assign (set_allRows rows)
  | RObject None (Some data) => assign (set_allRows data)
  | RArray l => assign (set_allRows l)
  | _ => throw {| message := "No data returned from API" |}
  end.

Definition fetch_from_API (h : Host) : Stmt :=
  match table h, API h with
  | Some tbl, Some api =>
      await (searchTable api) (fun response =>
        (match tbl with
         | Some sch => assign (set_tableSchema sch)
         | None => skip
         end ;;
         store_response response)%stmt)
  | _, Some api =>
      if datasource h then await (fetchDatasource api) store_response
      else store_response RUndefined
  | _, None => store_response RUndefined
  end.

Definition fetchData (h : Host) : Stmt :=
  (assign (set_loading true) ;;
   assign (set_error None) ;;
   try_finally
     (try_catch
        ((if datasource h || bool_decide (is_Some (table h))
          then try_catch (fetch_from_API h) (fun apiError => use_dummyData)
          else use_dummyData) ;;
         assign (set_currentPage 1) ;;
         assign (set_selectedRows ∅) ;;
         call_onRefresh h)
        (fun err =>
           assign (set_error (Some (error_text err))) ;; use_dummyData))
     (assign (set_loading false)))%stmt.

(** The rows on screen, from the state and the props. *)
Definition visibleRows (p : Props) (s : State) : list Row :=
  paginatedData
    (sortedData (filteredData (allRows s) (searchTerm s) (availableColumns (columns p)))
                (sortConfig s))
    (currentPage s) (itemsPerPage p).

(** A click on the header checkbox. *)
Definition click_selectAll (p : Props) (s : State) : State :=
  set_selectedRows (handleSelectAll (selectable p) (selectedRows s) (visibleRows p s)) s.

End Fixture.

(** ** The API variant *)

Module Api.

Definition availableColumns (columns : list string) (tableSchema : Schema)
    : list string :=
  if (0 <? length columns)%nat then columns
  else List.filter
         (fun k => negb (String.eqb (getColumnType_raw tableSchema k) "link")
                   && negb (String.eqb (getColumnType_raw tableSchema k) "attachment")
                   && negb (String.prefix "_" k))
         (map fst tableSchema).

Definition getRowId (row : Row) : value :=
  or_else (or_else (or_else (get row "_id") (get row "id")) (get row "_rev"))
          (VStr (JSON_stringify row)).

(** The identity [handleSelectAll] stores: [item._id || item.id || item._rev]. *)
Definition selectAll_id (item : Row) : value :=
  or_else (or_else (get item "_id") (get item "id")) (get item "_rev").

Definition handleSelectAll (selectable : bool) (selectedRows : gset value)
    (paginatedData : list Row) : gset value :=
  if negb selectable then selectedRows
  else if (size selectedRows =? length paginatedData)%nat
          && (0 <? length paginatedData)%nat
       then ∅
       else list_to_set (map selectAll_id paginatedData).

Definition row_checked (selectedRows : gset value) (row : Row) : bool :=
  bool_decide (getRowId row ∈ selectedRows).

(** The pagination bar of this variant: [{#if totalPages > 1}] inside the
    table block [{#if !loading && !error}] ([error] is null or a message). *)
Definition pagination_shown (loading : bool) (error : option string)
    (totalPages : Z) : bool :=
  negb loading
  && negb (match error with Some m => truthy (VStr m) | None => false end)
  && (1 <? totalPages).

Definition store_response (response : Response) : Stmt :=
  match response with
  | RObject (Some rows) _ => assign (set_allRows rows)
  | RObject None (Some data) => assign (set_allRows data)
  | RArray l => assign (set_allRows l)
  | _ => assign (set_allRows [])
  end.

(** A call through [API] when the host gave none raises a TypeError. *)
Definition no_API : Error := {| message := "API is undefined" |}.

Definition fetch_schema (h : Host) (tbl : option Schema) : Stmt :=
  match tbl with
  | Some sch => assign (set_tableSchema sch)
  | None =>
      try_catch
        (match API h with
         | Some api =>
             await (fetchTableDefinition api) (fun tableInfo =>
               assign (set_tableSchema (default [] tableInfo)))
         | None => throw no_API
         end)
        (fun schemaError => assign (set_tableSchema []))
  end.

Definition fetchData (h : Host) : Stmt :=
  if negb (datasource h) && negb (bool_decide (is_Some (table h))) then skip
  else
    (assign (set_loading true) ;;
     assign (set_error None) ;;
     try_finally
       (try_catch
          (match table h with
           | Some tbl =>
               match API h with
               | Some api =>
                   await (searchTable api) (fun response =>
                     (fetch_schema h tbl ;; store_response response)%stmt)
               | None => throw no_API
               end
           | None =>
               match API h with
               | Some api => await (fetchDatasource api) store_response
               | None => throw no_API
               end
           end ;;
           assign (set_currentPage 1) ;;
           assign (set_selectedRows ∅) ;;
           call_onRefresh h)
          (fun err =>
             assign (set_error (Some (error_text err))) ;; assign (set_allRows [])))
       (assign (set_loading false)))%stmt.

End Api.

(** ** The data-provider variant *)

Module Provider.

Record DataProvider : Type := {
  rows : option (list Row);
  schema : option Schema
}.

(** The state of this variant: the bound provider and the [let] variables. *)
Record State : Type := {
  dataProvider : option DataProvider;
  currentPage : Z;
  searchTerm : string;
  sortConfig : SortConfig;
  selectedRows : gset value;
  showActionMenu : value
}.

(** [dataProvider?.rows ?? []] *)
Definition rows_of (dataProvider : option DataProvider) : list Row :=
  match dataProvider with
  | Some dp => default [] (rows dp)
  | None => []
  end.

(** The filter stage as this variant writes it:
    [searchTerm === '' || columns.some(...)]. *)
Definition filteredData (rows : list Row) (searchTerm : string)
    (columns : list string) : list Row :=
  List.filter (fun item => String.eqb searchTerm ""
                           || existsb (cell_matches searchTerm item) columns) rows.

(** The identity this variant uses throughout: [item._id || item.id]. *)
Definition row_id (item : Row) : value := or_else (get item "_id") (get item "id").

Definition handleSelectAll (selectable : bool) (selectedRows : gset value)
    (paginatedData : list Row) : gset value :=
  if negb selectable then selectedRows
  else if (size selectedRows =? length paginatedData)%nat then ∅
       else list_to_set (map row_id paginatedData).

Definition formatValue (L : Locale) (v : value) (ty : string) : value :=
  match v with
  | VNull | VUndefined => VStr ""
  | _ =>
      if String.eqb ty "datetime" then VStr (toLocaleDateString L (Date_new L v))
      else if String.eqb ty "number" then
        match v with
        | VNum n => VStr (Number_toLocaleString L n)
        | _ => v
        end
      else if String.eqb ty "boolean" then
        VStr (if truthy v then "Yes" else "No")
      else VStr (ToString v)
  end.

(** [Object.keys(schema).filter(...)]: the columns of this variant. *)
Definition columns_of (schema : Schema) : list string :=
  List.filter
    (fun k => negb (String.eqb (getColumnType_raw schema k) "link")
              && negb (String.eqb (getColumnType_raw schema k) "attachment"))
    (map fst schema).

(** The label of this variant leaves the capitals alone. *)
Definition getColumnLabel (schema : Schema) (column : string) : string :=
  let derived := match column with
                 | EmptyString => EmptyString
                 | String c rest => String (upper_ascii c) rest
                 end in
  match schema_get schema column with
  | Some {| name := Some n |} => if truthy (VStr n) then n else derived
  | _ => derived
  end.

(** The pagination bar of this variant, which has no loading state:
    [{#if totalPages > 1}]. *)
Definition pagination_shown (totalPages : Z) : bool := 1 <? totalPages.

(** The host binds a new provider: [rows] is recomputed, and the reactive
    statement [if (rows) currentPage = 1] runs (an array is truthy). *)
Definition bind_dataProvider (dp : option DataProvider) (s : State) : State :=
  {| dataProvider := dp; currentPage := 1; searchTerm := searchTerm s;
     sortConfig := sortConfig s; selectedRows := selectedRows s;
     showActionMenu := showActionMenu s |}.

End Provider.

(** ** The operations as the specification words them

    These follow the sentences of the specification, not the source; they
    are what the source is compared with. *)

Module Spec.

(** The select-all toggle: when every identity of the current page is
    selected and the page is not empty, the whole set is cleared; otherwise
    the identities of the page are added to the set. *)
Definition toggleAllVisible (S : gset value) (page_ids : list value) : gset value :=
  if forallb (fun i => bool_decide (i ∈ S)) page_ids && (0 <? length page_ids)%nat
  then ∅
  else S ∪ list_to_set page_ids.

(** The display string the filter compares: null and undefined give the
    empty string, every other value its stringification. *)
Definition display_string (v : value) : string :=
  match v with
  | VNull | VUndefined => ""
  | _ => ToString v
  end.

(** A row passes the filter when the term is empty or the display string of
    one of the columns contains it, case set aside. *)
Definition row_passes (t : string) (C : list string) (r : Row) : bool :=
  String.eqb t ""
  || existsb (fun col => includes (toLowerCase (display_string (get r col)))
                                  (toLowerCase t)) C.

(** The formatted value: the empty string for null and undefined; Yes or No
    for the type boolean; the locale's number for a number of type number
    and the value itself otherwise; the joined elements for an array of
    type options and the value itself otherwise; the locale's date string
    for the type datetime; the stringification for any other type. *)
Definition formatValue (L : Locale) (v : value) (t : string) : value :=
  match v with
  | VNull | VUndefined => VStr ""
  | _ =>
      if String.eqb t "boolean" then VStr (if truthy v then "Yes" else "No")
      else if String.eqb t "number" then
        match v with VNum n => VStr (Number_toLocaleString L n) | _ => v end
      else if String.eqb t "options" then
        match v with VArr l => VStr (Array_join ", " l) | _ => v end
      else if String.eqb t "datetime" then
        VStr (toLocaleDateString L (Date_new L v))
      else VStr (ToString v)
  end.

End Spec.

(** A locale to evaluate with: numbers and dates print as plain decimals
    and no string parses as a date. *)
Definition plain_locale : Locale :=
  {| Number_toLocaleString := Number_toString;
     Date_parse := fun _ => None;
     Date_toLocaleDateString := Number_toString |}.

(** ** Orderings of a column

    The comparator of the sort stage orders rows by [lt] on one column.  On
    a list of rows it is a consistent ordering when [lt] on the column's
    values is asymmetric and negatively transitive there (a strict weak
    ordering); then rows that compare equal form classes. *)

Definition key_lt (k : string) (a b : Row) : bool := lt (get a k) (get b k).

(** Neither is before the other: the comparator answers 0. *)
Definition key_equiv (k : string) (a b : Row) : bool :=
  negb (key_lt k a b) && negb (key_lt k b a).

(** Strictly before in the direction of the sort. *)
Definition dir_before (k : string) (d : Direction) (a b : Row) : bool :=
  match d with
  | asc => key_lt k a b
  | desc => key_lt k b a
  end.

Definition consistent_on (k : string) (R : list Row) : bool :=
  forallb (fun a => forallb (fun b =>
    negb (key_lt k a b && key_lt k b a)
    && forallb (fun c => implb (key_lt k a c) (key_lt k a b || key_lt k b c)) R) R) R.

(** Ascending: no row is strictly after a later one; descending likewise. *)
Definition ascending (k : string) (l : list Row) : Prop :=
  StronglySorted (fun a b => key_lt k b a = false) l.

Definition descending (k : string) (l : list Row) : Prop :=
  StronglySorted (fun a b => key_lt k a b = false) l.

(** The rows that compare equal to a row [r] of [l] stand in [l'] in the
    order they have in [l]. *)
Definition ties_kept (k : string) (l l' : list Row) : Prop :=
  forall r, In r l -> List.filter (key_equiv k r) l' = List.filter (key_equiv k r) l.

(** Sorting ascending and then descending, as the specification describes
    the outcome: both results are rearrangements of the input in the order
    asked for, and ties keep the order of the input in both. *)
Definition sort_mirror (k : string) (R : list Row) : Prop :=
  let A := sortedData R {| key := Some k; direction := asc |} in
  let D := sortedData A {| key := Some k; direction := desc |} in
  Permutation R A /\ ascending k A /\ ties_kept k R A
  /\ Permutation R D /\ descending k D /\ ties_kept k R D.

(** * Properties *)

(** ** Page stage *)

Section Paging.
Context {A : Type}.
Implicit Types l : list A.

(** On a start that is not negative and a length that is not negative,
    [slice] takes [n] elements after dropping [s]. *)
Lemma slice_take_drop l (s n : Z) :
  0 <= s -> 0 <= n ->
  slice l s (s + n) = take (Z.to_nat n) (drop (Z.to_nat s) l).
Proof.
  intros Hs Hn. unfold slice, rel_index.
  set (len := Z.of_nat (length l)).
  assert (Hlen : 0 <= len) by (unfold len; lia).
  destruct (Z.ltb_spec s 0) as [? | _]; [lia |].
  destruct (Z.ltb_spec (s + n) 0) as [? | _]; [lia |].
  destruct (Z.le_gt_cases len s) as [Hge | Hlt].
  - rewrite (Z.min_r s len), (Z.min_r (s + n) len), Z.sub_diag by lia.
    rewrite (drop_ge l (Z.to_nat s)) by (unfold len in Hge; lia).
    now rewrite take_nil.
  - rewrite (Z.min_l s len) by lia.
    replace (drop (Z.to_nat (Z.min s len)) l) with (drop (Z.to_nat s) l)
      by (f_equal; lia).
    destruct (Z.le_gt_cases (s + n) len) as [Hfit | Hover].
    + rewrite Z.min_l by lia. f_equal. lia.
    + rewrite Z.min_r by lia.
      rewrite !take_ge; [reflexivity | |]; rewrite length_drop; unfold len in *; lia.
Qed.

(** A start at or past the end gives the empty slice. *)
Lemma slice_past_end l (s e : Z) :
  Z.of_nat (length l) <= s -> slice l s e = [].
Proof.
  intros Hs. unfold slice, rel_index.
  destruct (Z.ltb_spec s 0) as [? | _]; [lia |].
  rewrite (Z.min_r s _) by lia.
  rewrite drop_ge by lia. apply take_nil.
Qed.

(** The first [m] chunks of [p] elements are the first [m * p] elements. *)
Lemma chunks_take l (p m : nat) :
  concat (map (fun k => take p (drop (k * p) l)) (seq 0 m)) = take (m * p) l.
Proof.
  induction m as [| m IH]; [reflexivity |].
  rewrite seq_S, map_app, concat_app, IH. simpl.
  rewrite app_nil_r, take_take_drop. f_equal. lia.
Qed.
End Paging.

Lemma ceil_div_bounds (n p : Z) :
  0 < p -> (ceil_div n p - 1) * p < n <= ceil_div n p * p.
Proof.
  intros Hp. unfold ceil_div.
  pose proof (Z.div_mod (- n) p ltac:(lia)) as Hdm.
  pose proof (Z.mod_pos_bound (- n) p Hp) as Hr.
  nia.
Qed.

Lemma paginatedData_chunk (R : list Row) (k p : Z) :
  1 <= k -> 0 < p ->
  paginatedData R k p
  = take (Z.to_nat p) (drop (Z.to_nat (k - 1) * Z.to_nat p) R).
Proof.
  intros Hk Hp. unfold paginatedData, startIndex.
  rewrite slice_take_drop by nia.
  do 2 f_equal. nia.
Qed.

(** ** Page-number buttons *)

Lemma page_buttons_few (totalPages currentPage : Z) :
  totalPages <= 5 -> page_buttons totalPages currentPage = seqZ 1 totalPages.
Proof.
  intros Hle. unfold page_buttons, seqZ.
  rewrite Z.min_r by lia.
  apply map_ext. intros i. unfold page_button.
  destruct (Z.leb_spec totalPages 5); lia.
Qed.

(** ** Sort toggling *)

Lemma SortConfig_eq (c : SortConfig) (k : option string) (d : Direction) :
  c = {| key := k; direction := d |} <-> key c = k /\ direction c = d.
Proof.
  destruct c as [k' d']; simpl. split.
  - intros [= -> ->]. now split.
  - intros [-> ->]. reflexivity.
Qed.

(** C6. For a page size [p > 0], the slices of the pages 1 to
    [ceil(|R| / p)] concatenate to [R]; every page before the last has
    exactly [p] rows and the last has between 1 and [p]; a page whose start
    index is at or past [|R|] is the empty slice. *)
Theorem pages_reconstruct (R : list Row) (p : Z) :
  0 < p ->
  let n := totalPages R p in
  concat (map (fun k => paginatedData R k p) (seqZ 1 n)) = R
  /\ (forall k, 1 <= k < n -> Z.of_nat (length (paginatedData R k p)) = p)
  /\ (1 <= n -> 1 <= Z.of_nat (length (paginatedData R n p)) <= p)
  /\ (forall k, Z.of_nat (length R) <= startIndex k p -> paginatedData R k p = []).
Proof.
  intros Hp n.
  pose proof (ceil_div_bounds (Z.of_nat (length R)) p Hp) as Hn.
  fold (totalPages R p) in Hn. fold n in Hn.
  assert (Hn0 : 0 <= n) by nia.
  split; [| split; [| split]].
  - unfold seqZ. rewrite <- list_fmap_compose.
    rewrite (map_ext_in _ (fun i => take (Z.to_nat p) (drop (i * Z.to_nat p) R))).
    + rewrite chunks_take. apply take_ge. nia.
    + intros i _. unfold compose. rewrite paginatedData_chunk by lia.
      do 2 f_equal. lia.
  - intros k Hk.
    rewrite paginatedData_chunk, length_take, length_drop by lia. nia.
  - intros Hn1.
    rewrite paginatedData_chunk, length_take, length_drop by lia. nia.
  - intros k Hk. now apply slice_past_end.
Qed.

Lemma pages_reconstruct_witness :
  let R : list Row := [ [("n", VNum 1)]; [("n", VNum 2)]; [("n", VNum 3)] ] in
  totalPages R 2 = 2
  /\ (paginatedData R 1 2 ++ paginatedData R 2 2)%list = R
  /\ paginatedData R 3 2 = [].
Proof.
  intros R.
  destruct (pages_reconstruct R 2 ltac:(lia)) as (Hcat & _ & _ & Hpast).
  split; [reflexivity |]. split.
  - exact Hcat.
  - apply Hpast. unfold startIndex, R. simpl. lia.
Defined.

(** C7. With at most 5 pages the buttons are the pages 1 to [totalPages];
    with more, they are 1 to 5 when [currentPage <= 3], the last five pages
    when [currentPage >= totalPages - 2], and the five pages around
    [currentPage] in between.  With 12 pages the windows at the pages 1, 7
    and 12 are 1 to 5, 5 to 9 and 8 to 12. *)
Theorem page_buttons_window :
  (forall totalPages currentPage : Z,
      1 <= totalPages -> 1 <= currentPage <= totalPages ->
      page_buttons totalPages currentPage =
        if totalPages <=? 5 then seqZ 1 totalPages
        else if currentPage <=? 3 then [1; 2; 3; 4; 5]
        else if totalPages - 2 <=? currentPage
             then [totalPages - 4; totalPages - 3; totalPages - 2;
                   totalPages - 1; totalPages]
        else [currentPage - 2; currentPage - 1; currentPage;
              currentPage + 1; currentPage + 2])
  /\ page_buttons 12 1 = [1; 2; 3; 4; 5]
  /\ page_buttons 12 7 = [5; 6; 7; 8; 9]
  /\ page_buttons 12 12 = [8; 9; 10; 11; 12].
Proof.
  split; [| repeat split; reflexivity].
  intros tp cp Htp Hcp.
  destruct (Z.leb_spec tp 5) as [Hfew | Hmany].
  { now apply page_buttons_few. }
  unfold page_buttons. rewrite Z.min_l by lia.
  change (Z.to_nat 5) with 5%nat. cbn [seq map]. unfold page_button.
  destruct (Z.leb_spec tp 5) as [? | _]; [lia |].
  destruct (Z.leb_spec cp 3) as [Hlow | Hmid].
  { reflexivity. }
  destruct (Z.leb_spec (tp - 2) cp) as [Hhigh | Hin];
    destruct (Z.geb_spec cp (tp - 2)) as [? | ?]; try lia;
    repeat (apply f_equal2; [lia |]); reflexivity.
Qed.

Lemma page_buttons_window_witness :
  page_buttons 9 5 = [3; 4; 5; 6; 7] /\ page_buttons 4 2 = [1; 2; 3; 4].
Proof.
  split.
  - exact (proj1 page_buttons_window 9 5 ltac:(lia) ltac:(lia)).
  - exact (proj1 page_buttons_window 4 2 ltac:(lia) ltac:(lia)).
Defined.

(** C10. With sorting enabled, [handleSort k] gives the configuration
    [{key: k, direction: desc}] exactly when the previous one was
    [{key: k, direction: asc}], and [{key: k, direction: asc}] in every other
    case; with sorting disabled it leaves the configuration as it was. *)
Theorem handleSort_toggle (c : SortConfig) (k : string) :
  (handleSort true c k = {| key := Some k; direction := desc |}
     <-> c = {| key := Some k; direction := asc |})
  /\ (handleSort true c k = {| key := Some k; direction := asc |}
     <-> c <> {| key := Some k; direction := asc |})
  /\ handleSort false c k = c.
Proof.
  destruct c as [[k' |] [|]]; unfold handleSort; simpl;
    try destruct (String.eqb_spec k' k) as [-> | Hne];
    (split; [| split]; [split | split | reflexivity]); intros H;
    try reflexivity; try discriminate; try congruence.
Qed.

(** ** Selection *)

Lemma or_else_truthy (a b : value) : truthy b = true -> truthy (or_else a b) = true.
Proof. intros Hb. unfold or_else. destruct (truthy a) eqn:Ha; assumption. Qed.

(** Every row has an identity in the fixture variant: the serialization of
    a row is not the empty string. *)
Lemma Fixture_getRowId_truthy (row : Row) : truthy (Fixture.getRowId row) = true.
Proof. unfold Fixture.getRowId. apply or_else_truthy. reflexivity. Qed.

(** In the fixture variant select-all stores, for each row of the page, the
    identity the checkbox of the row tests. *)
Lemma Fixture_selectAll_checks (S : gset value) (P : list Row) (row : Row) :
  Fixture.header_checked S P = false -> In row P ->
  Fixture.row_checked (Fixture.handleSelectAll true S P) row = true.
Proof.
  intros Hhdr Hin. unfold Fixture.handleSelectAll, Fixture.row_checked.
  unfold Fixture.header_checked in Hhdr. simpl. rewrite Hhdr.
  apply bool_decide_eq_true. apply elem_of_list_to_set, list_elem_of_In.
  now apply in_map.
Qed.

Section SelectAll.
Implicit Types (S : gset value) (P : list Row).

Lemma handleSelectAll_clear S P :
  size S = length P -> P <> [] -> Fixture.handleSelectAll true S P = ∅.
Proof.
  intros Hsz Hne. unfold Fixture.handleSelectAll. simpl.
  rewrite Hsz, Nat.eqb_refl. destruct P; [contradiction | reflexivity].
Qed.

Lemma handleSelectAll_replace S P :
  size S <> length P \/ P = [] ->
  Fixture.handleSelectAll true S P = list_to_set (map Fixture.getRowId P).
Proof.
  intros H. unfold Fixture.handleSelectAll. simpl.
  destruct H as [H | ->].
  - apply Nat.eqb_neq in H. now rewrite H.
  - simpl. now rewrite andb_false_r.
Qed.
End SelectAll.

(** The other two variants replace the set in the same way, each with its
    own identity of a row. *)
Lemma Api_handleSelectAll_replace (S : gset value) (P : list Row) :
  size S <> length P ->
  Api.handleSelectAll true S P = list_to_set (map Api.selectAll_id P).
Proof.
  intros H. unfold Api.handleSelectAll. simpl.
  apply Nat.eqb_neq in H. now rewrite H.
Qed.

Lemma Provider_handleSelectAll_replace (S : gset value) (P : list Row) :
  size S <> length P ->
  Provider.handleSelectAll true S P = list_to_set (map Provider.row_id P).
Proof.
  intros H. unfold Provider.handleSelectAll. simpl.
  apply Nat.eqb_neq in H. now rewrite H.
Qed.

(** C1, as the specification states it, fails: with the identity x selected
    from another page and a page of two rows a and b, the code leaves the
    set with a and b only, where the specification keeps x. *)
Lemma select_all_drops_other_pages :
  let S : gset value := {[ VStr "x" ]} in
  let P : list Row := [ [("_id", VStr "a")]; [("_id", VStr "b")] ] in
  Fixture.handleSelectAll true S P = {[ VStr "a"; VStr "b" ]}
  /\ Spec.toggleAllVisible S (map Fixture.getRowId P) = {[ VStr "x"; VStr "a"; VStr "b" ]}
  /\ Fixture.handleSelectAll true S P <> Spec.toggleAllVisible S (map Fixture.getRowId P).
Proof.
  intros S P. repeat split; try (vm_compute; reflexivity).
  intros Heq. apply (f_equal size) in Heq. vm_compute in Heq. discriminate.
Qed.

(** C1, amended. When the number of selected identities equals the number
    of rows of the page and the page is not empty, the selection set becomes
    empty; otherwise it becomes exactly the set of the identities of the
    page (an identity selected from another page is dropped); with
    selection disabled the set is left as it was. *)
Theorem handleSelectAll_spec (S : gset value) (P : list Row) :
  (size S = length P /\ P <> [] -> Fixture.handleSelectAll true S P = ∅)
  /\ (~ (size S = length P /\ P <> []) ->
      forall i, i ∈ Fixture.handleSelectAll true S P
                <-> exists row, In row P /\ Fixture.getRowId row = i)
  /\ Fixture.handleSelectAll false S P = S.
Proof.
  split; [| split].
  - intros [Hsz Hne]. now apply handleSelectAll_clear.
  - intros Hnot i. rewrite handleSelectAll_replace.
    + rewrite elem_of_list_to_set, list_elem_of_In, in_map_iff.
      split; intros (row & H1 & H2); exists row; auto.
    + destruct (decide (size S = length P)) as [Hsz | Hsz]; [| now left].
      right. destruct P; [reflexivity |]. exfalso. apply Hnot. now split.
  - reflexivity.
Qed.

Lemma handleSelectAll_spec_witness :
  let S : gset value := {[ VStr "x" ]} in
  let P : list Row := [ [("_id", VStr "a")]; [("_id", VStr "b")] ] in
  VStr "a" ∈ Fixture.handleSelectAll true S P
  /\ Fixture.handleSelectAll true {[ VStr "a"; VStr "b" ]} P = ∅.
Proof.
  intros S P. split.
  - apply (proj1 (proj2 (handleSelectAll_spec S P))).
    + intros [Hsz _]. vm_compute in Hsz. discriminate.
    + exists [("_id", VStr "a")]. split; [now left | reflexivity].
  - apply (proj1 (handleSelectAll_spec {[ VStr "a"; VStr "b" ]} P)).
    split; [vm_compute; reflexivity | discriminate].
Defined.

(** C2, as the specification states it, fails: with x selected and a page
    of two rows a and b, the first toggle leaves a and b, the second leaves
    nothing, and x is not back. *)
Lemma select_all_twice_loses_selection :
  let S : gset value := {[ VStr "x" ]} in
  let P : list Row := [ [("_id", VStr "a")]; [("_id", VStr "b")] ] in
  Fixture.handleSelectAll true (Fixture.handleSelectAll true S P) P = ∅
  /\ Fixture.handleSelectAll true (Fixture.handleSelectAll true S P) P <> S.
Proof.
  intros S P. split; [vm_compute; reflexivity |].
  intros Heq. apply (f_equal size) in Heq. vm_compute in Heq. discriminate.
Qed.

(** C2, amended. On an unchanged page that is not empty and whose rows have
    distinct identities, two select-all toggles return the selection set to
    [S] exactly when [S] is empty or is the set of the identities of the
    page.  Going to another page (the page buttons, Previous, Next) changes
    [currentPage] only: the identities select-all put in the set on the
    page left are all still in it. *)
Theorem select_all_twice (S : gset value) (P : list Row) :
  P <> [] -> NoDup (map Fixture.getRowId P) ->
  (Fixture.handleSelectAll true (Fixture.handleSelectAll true S P) P = S
     <-> S = ∅ \/ S = list_to_set (map Fixture.getRowId P))
  /\ (forall (s : State) (pageNum tp : Z),
        selectedRows (goToPage pageNum s) = selectedRows s
        /\ selectedRows (previousPage s) = selectedRows s
        /\ selectedRows (nextPage tp s) = selectedRows s)
  /\ (forall (p : Props) (s : State) (pageNum : Z) (row : Row),
        selectable p = true ->
        Fixture.header_checked (selectedRows s) (Fixture.visibleRows p s) = false ->
        In row (Fixture.visibleRows p s) ->
        Fixture.getRowId row ∈ selectedRows (goToPage pageNum (Fixture.click_selectAll p s))).
Proof.
  intros Hne Hnd.
  set (I := list_to_set (map Fixture.getRowId P) : gset value).
  assert (HI : size I = length P).
  { unfold I. rewrite size_list_to_set by exact Hnd. apply length_map. }
  assert (Hlen : length P <> 0%nat) by (destruct P; [contradiction | discriminate]).
  split; [| split].
  - destruct (decide (size S = length P)) as [Hsz | Hsz].
    + rewrite (handleSelectAll_clear S P Hsz Hne).
      rewrite handleSelectAll_replace by (left; rewrite size_empty; lia).
      fold I. split.
      * intros <-. now right.
      * intros [-> | ->]; [| reflexivity].
        rewrite size_empty in Hsz. lia.
    + rewrite (handleSelectAll_replace S P) by now left.
      fold I. rewrite (handleSelectAll_clear I P HI Hne). split.
      * intros <-. now left.
      * intros [-> | ->]; [reflexivity | contradiction].
  - intros s pageNum tp. repeat split.
  - intros p s pageNum row Hsel Hhdr Hin.
    unfold goToPage, Fixture.click_selectAll. simpl. rewrite Hsel.
    pose proof (Fixture_selectAll_checks _ _ _ Hhdr Hin) as Hc.
    now apply bool_decide_eq_true in Hc.
Qed.

Lemma select_all_twice_witness :
  let P : list Row := [ [("_id", VStr "a")]; [("_id", VStr "b")] ] in
  Fixture.handleSelectAll true (Fixture.handleSelectAll true ∅ P) P = ∅.
Proof.
  intros P.
  assert (Hne : P <> []) by discriminate.
  assert (Hnd : NoDup (map Fixture.getRowId P)).
  { apply (bool_decide_unpack _). vm_compute. exact I. }
  apply (proj1 (select_all_twice ∅ P Hne Hnd)). now left.
Defined.

(** ** Row identity *)

(** The chain of the fixture variant, link by link. *)
Lemma Fixture_getRowId_chain (row : Row) :
  Fixture.getRowId row =
    if truthy (get row "_id") then get row "_id"
    else if truthy (get row "id") then get row "id"
    else if truthy (get row "customerid") then get row "customerid"
    else if truthy (get row "_rev") then get row "_rev"
    else VStr (JSON_stringify row).
Proof.
  unfold Fixture.getRowId, or_else.
  destruct (truthy (get row "_id")) eqn:H1; [now rewrite !H1 |].
  destruct (truthy (get row "id")) eqn:H2; [now rewrite !H2 |].
  destruct (truthy (get row "customerid")) eqn:H3; [now rewrite !H3 |].
  destruct (truthy (get row "_rev")) eqn:H4; reflexivity.
Qed.

(** C8. The property holds in the fixture variant ([Fixture_getRowId_chain],
    [Fixture_getRowId_truthy], [Fixture_selectAll_checks]).  In the API
    variant [handleSelectAll] does not go through [getRowId]: for a row with
    none of [_id], [id], [_rev] it stores [undefined], while the checkbox of
    the row tests the serialization of the row, so after select-all the row
    is in no way marked selected. *)
Theorem Api_selectAll_identity_differs :
  let row : Row := [("name", VStr "x")] in
  Api.selectAll_id row = VUndefined
  /\ Api.getRowId row = VStr (JSON_stringify row)
  /\ Api.handleSelectAll true ∅ [row] = {[ VUndefined ]}
  /\ Api.row_checked (Api.handleSelectAll true ∅ [row]) row = false.
Proof.
  intros row. repeat split; vm_compute; reflexivity.
Qed.

(** ** Reload *)

Definition reset_done (s : State) : Prop :=
  currentPage s = 1 /\ selectedRows s = ∅.

(** The fixture variant resets the page and the selection whatever the
    host answers: a failed call falls back to the fixture rows inside the
    inner [try], and the reset follows. *)
Lemma Fixture_fetchData_resets (h : Host) (s : State) :
  reset_done (run (Fixture.fetchData h) s).
Proof.
  destruct h as [ds tbl api cb].
  destruct cb as [[[] | e] |];
    destruct ds; destruct tbl as [[sch |] |];
    destruct api as [[[[[r |] [d |] | l |] | e1] [[[r' |] [d' |] | l' |] | e2] td] |];
    split; reflexivity.
Qed.

Lemma Fixture_initializeData_resets (h : Host) (s : State) :
  reset_done (run (Fixture.initializeData h) s).
Proof.
  destruct h as [ds tbl api [[[] | e] |]]; split; reflexivity.
Qed.

(** The API variant resets them when the call for the rows comes back,
    whatever the shape of the response (an empty result included). *)
Lemma Api_fetchData_resets_on_response (h : Host) (api : HostAPI) (resp : Response)
    (s : State) :
  API h = Some api ->
  match table h with
  | Some _ => searchTable api = Resolves resp
  | None => datasource h = true /\ fetchDatasource api = Resolves resp
  end ->
  reset_done (run (Api.fetchData h) s).
Proof.
  destruct h as [ds tbl oapi cb]. simpl. intros -> Hcall.
  destruct api as [st fd td]. simpl in Hcall.
  destruct tbl as [[sch |] |].
  - subst st. destruct ds, resp as [[r |] [d |] | l |], cb as [[[] | e] |];
      split; reflexivity.
  - subst st.
    destruct ds, td as [[sch |] | e'], resp as [[r |] [d |] | l |], cb as [[[] | e] |];
      split; reflexivity.
  - destruct Hcall as [-> ->].
    destruct resp as [[r |] [d |] | l |], cb as [[[] | e] |]; split; reflexivity.
Qed.

(** The provider variant sets the page to 1 when a provider is bound, and
    has nothing that clears the selection. *)
Lemma Provider_bind_dataProvider (dp : option Provider.DataProvider)
    (s : Provider.State) :
  Provider.currentPage (Provider.bind_dataProvider dp s) = 1
  /\ Provider.selectedRows (Provider.bind_dataProvider dp s) = Provider.selectedRows s.
Proof. split; reflexivity. Qed.

(** C3. In the API variant a failed fetch leaves the page and the
    selection as they were: with page 3 current and two rows selected, a
    rejected call empties the rows, sets the error, and resets neither. *)
Theorem Api_fetchData_failure_keeps_state :
  let failure : Error := {| message := "Network error" |} in
  let h : Host :=
    {| datasource := true; table := None;
       API := Some {| searchTable := Rejects failure;
                      fetchDatasource := Rejects failure;
                      fetchTableDefinition := Rejects failure |};
       onRefresh := None |} in
  let s : State :=
    set_currentPage 3
      (set_selectedRows {[ VStr "a"; VStr "b" ]}
         (set_allRows [ [("_id", VStr "a")]; [("_id", VStr "b")] ] initial)) in
  let s' := run (Api.fetchData h) s in
  allRows s' = [] /\ error s' = Some "Network error" /\ loading s' = false
  /\ currentPage s' = 3 /\ selectedRows s' = {[ VStr "a"; VStr "b" ]}.
Proof.
  intros failure h s s'. repeat split; reflexivity.
Qed.

(** ** Filter stage *)

Lemma filteredData_empty_term (R : list Row) (C : list string) :
  filteredData R "" C = R.
Proof.
  unfold filteredData, filter_callback. simpl.
  induction R as [| r R IH]; simpl; [reflexivity | now rewrite IH].
Qed.

(** The result is a subsequence of the rows. *)
Lemma filteredData_sublist (R : list Row) (t : string) (C : list string) :
  sublist (filteredData R t C) R.
Proof.
  unfold filteredData. induction R as [| r R IH]; simpl; [constructor |].
  destruct (filter_callback t C r); now constructor.
Qed.

(** The rows kept: those with a column whose coerced value contains the
    term, case set aside. *)
Lemma filteredData_In (R : list Row) (t : string) (C : list string) (r : Row) :
  In r (filteredData R t C)
  <-> In r R /\ (t = "" \/ exists col, In col C /\ cell_matches t r col = true).
Proof.
  unfold filteredData. rewrite filter_In. unfold filter_callback. simpl.
  destruct (String.eqb_spec t "") as [-> | Hne]; simpl.
  - intuition.
  - rewrite existsb_exists. split; intros [H1 H2]; (split; [exact H1 |]).
    + now right.
    + destruct H2 as [H2 | H2]; [contradiction | exact H2].
Qed.

(** The provider variant writes the test of the empty term differently and
    filters the same rows. *)
Lemma Provider_filteredData_same (R : list Row) (t : string) (C : list string) :
  Provider.filteredData R t C = filteredData R t C.
Proof.
  unfold Provider.filteredData, filteredData. apply filter_ext. intros r.
  unfold filter_callback. simpl. now destruct (String.eqb t "").
Qed.

(** The coercion of the source agrees with the display string of the
    specification on every value but the number 0 and the boolean false,
    which it turns into the empty string. *)
Lemma coerced_display_string (v : value) :
  v <> VNum 0 -> v <> VBool false ->
  ToString (or_else v (VStr "")) = Spec.display_string v.
Proof.
  intros Hn Hb. unfold or_else.
  destruct v as [| | [|] | n | s | l]; simpl; try reflexivity; try congruence.
  - destruct (Z.eqb_spec n 0) as [-> | _]; simpl; [congruence | reflexivity].
  - destruct (String.eqb_spec s "") as [-> | _]; reflexivity.
Qed.

(** C4. The filter stage keeps a subsequence of the rows, keeps them all
    for the empty term, and lowers the case of both sides
    ([filteredData_sublist], [filteredData_empty_term], [filteredData_In]);
    but a number 0 and a boolean false are not coerced to their display
    strings: a row whose quantity is 0 does not pass the term 0, and a row
    whose flag is false does not pass the term false. *)
Theorem filter_misses_falsy_values :
  let row : Row := [("name", VStr "bolt"); ("qty", VNum 0); ("ok", VBool false)] in
  ToString (get row "qty") = "0"
  /\ Spec.row_passes "0" ["qty"] row = true
  /\ filteredData [row] "0" ["qty"] = []
  /\ ToString (get row "ok") = "false"
  /\ Spec.row_passes "false" ["ok"] row = true
  /\ filteredData [row] "false" ["ok"] = [].
Proof.
  intros row. repeat split; reflexivity.
Qed.

(** ** Value formatting *)

(** The provider variant has no case for the type options and is the same
    function on every other type. *)
Lemma Provider_formatValue_same (L : Locale) (v : value) (t : string) :
  t <> "options" -> Provider.formatValue L v t = formatValue L v t.
Proof.
  intros Ht. unfold Provider.formatValue, formatValue.
  destruct (String.eqb_spec t "options") as [-> | _]; [contradiction |].
  reflexivity.
Qed.

(** C9, as the specification states it, fails in the provider variant,
    which has no case for the type options: a value of that type is
    stringified there, so the number 5 comes back as the string 5 and not
    unchanged, and an array comes back joined with a comma and no blank. *)
Lemma Provider_formatValue_options_stringified :
  Provider.formatValue plain_locale (VNum 5) "options" = VStr "5"
  /\ Spec.formatValue plain_locale (VNum 5) "options" = VNum 5
  /\ Provider.formatValue plain_locale (VNum 5) "options"
     <> Spec.formatValue plain_locale (VNum 5) "options"
  /\ Provider.formatValue plain_locale (VArr [VStr "a"; VStr "b"]) "options" = VStr "a,b"
  /\ Spec.formatValue plain_locale (VArr [VStr "a"; VStr "b"]) "options" = VStr "a, b".
Proof.
  split; [reflexivity |]. split; [reflexivity |]. split; [| split; reflexivity].
  vm_compute. discriminate.
Qed.

(** C9, amended. In Component.svelte and the API variant [formatValue v t]
    is the empty string when [v] is null or undefined; otherwise Yes or No
    for the type boolean; the locale's number for the type number when [v]
    is a number, and [v] otherwise; for the type options the elements
    joined with a comma and a blank when [v] is an array, and [v]
    otherwise; the locale's date string of [new Date(v)] for the type
    datetime; and the stringification of [v] for any other type.  The
    provider variant does the same for every type but options, for which it
    has no case: there a value of type options is stringified like a value
    of any other type (an array's elements joined with a comma). *)
Theorem formatValue_cases (L : Locale) (v : value) (t : string) :
  formatValue L v t = Spec.formatValue L v t
  /\ (forall n l,
        formatValue L VNull t = VStr ""
        /\ formatValue L VUndefined t = VStr ""
        /\ formatValue L (VNum n) "number" = VStr (Number_toLocaleString L n)
        /\ formatValue L (VArr l) "options" = VStr (Array_join ", " l))
  /\ (v <> VNull -> v <> VUndefined ->
      formatValue L v "boolean" = VStr (if truthy v then "Yes" else "No")
      /\ formatValue L v "datetime" = VStr (toLocaleDateString L (Date_new L v))
      /\ (is_number v = false -> formatValue L v "number" = v)
      /\ (isArray v = false -> formatValue L v "options" = v)
      /\ (t <> "boolean" -> t <> "datetime" -> t <> "number" -> t <> "options" ->
          formatValue L v t = VStr (ToString v))
      /\ Provider.formatValue L v "options" = VStr (ToString v))
  /\ (t <> "options" -> Provider.formatValue L v t = Spec.formatValue L v t)
  /\ Provider.formatValue L VNull t = VStr ""
  /\ Provider.formatValue L VUndefined t = VStr "".
Proof.
  assert (Hsame : formatValue L v t = Spec.formatValue L v t).
  { unfold formatValue, Spec.formatValue.
    destruct (String.eqb t "datetime") eqn:Hd, (String.eqb t "number") eqn:Hn,
             (String.eqb t "boolean") eqn:Hb, (String.eqb t "options") eqn:Ho;
      try reflexivity;
      repeat match goal with
             | H : String.eqb t _ = true |- _ => apply String.eqb_eq in H
             end; congruence. }
  split; [exact Hsame |]. split; [intros n l; repeat split; reflexivity |].
  split; [| split; [| split; reflexivity]].
  - intros Hnull Hundef.
    split; [destruct v; try reflexivity; contradiction |].
    split; [destruct v; try reflexivity; contradiction |].
    split; [intros Hnum; destruct v; try reflexivity; try contradiction; discriminate |].
    split; [intros Harr; destruct v; try reflexivity; try contradiction; discriminate |].
    split; [| destruct v; try reflexivity; contradiction].
    intros Hb Hd Hn Ho. unfold formatValue.
    apply String.eqb_neq in Hb, Hd, Hn, Ho. rewrite Hb, Hd, Hn, Ho.
    destruct v; try reflexivity; contradiction.
  - intros Ho. rewrite <- Hsame. unfold Provider.formatValue, formatValue.
    apply String.eqb_neq in Ho. rewrite Ho. reflexivity.
Qed.

Lemma formatValue_cases_witness :
  formatValue plain_locale (VStr "7") "number" = VStr "7"
  /\ formatValue plain_locale (VBool false) "boolean" = VStr "No"
  /\ formatValue plain_locale (VBool true) "text" = VStr "true"
  /\ formatValue plain_locale (VStr "soon") "datetime" = VStr "Invalid Date"
  /\ Provider.formatValue plain_locale (VNum 1234) "number" = VStr "1234"
  /\ Provider.formatValue plain_locale (VBool true) "options" = VStr "true".
Proof.
  pose proof (formatValue_cases plain_locale (VStr "7") "number")
    as (_ & _ & H7 & _).
  pose proof (formatValue_cases plain_locale (VBool false) "boolean")
    as (_ & _ & Hno & _).
  pose proof (formatValue_cases plain_locale (VBool true) "text")
    as (_ & _ & Htrue & _).
  pose proof (formatValue_cases plain_locale (VStr "soon") "text")
    as (_ & _ & Hsoon & _).
  pose proof (formatValue_cases plain_locale (VNum 1234) "number")
    as (_ & _ & _ & Hprov & _).
  split; [| split; [| split; [| split; [| split]]]].
  - destruct (H7 ltac:(discriminate) ltac:(discriminate)) as (_ & _ & H & _).
    now apply H.
  - destruct (Hno ltac:(discriminate) ltac:(discriminate)) as (H & _). exact H.
  - destruct (Htrue ltac:(discriminate) ltac:(discriminate)) as (_ & _ & _ & _ & H & _).
    apply H; discriminate.
  - destruct (Hsoon ltac:(discriminate) ltac:(discriminate)) as (_ & H & _). exact H.
  - rewrite (Hprov ltac:(discriminate)). reflexivity.
  - destruct (Htrue ltac:(discriminate) ltac:(discriminate)) as (_ & _ & _ & _ & _ & H).
    exact H.
Defined.

(** ** Sort stage *)

(** The insertion behind [Array_sort], for a comparator that follows a
    strict weak ordering [before] on the elements of interest. *)
Section StableInsertion.
Context {A : Type}.
Variable comparefn : A -> A -> Z.
Variable before : A -> A -> bool.
Variable dom : A -> Prop.

Hypothesis asym :
  forall a b, dom a -> dom b -> before a b = true -> before b a = false.
Hypothesis negtrans :
  forall a b c, dom a -> dom b -> dom c ->
    before a c = true -> before a b = true \/ before b c = true.
Hypothesis comparefn_before :
  forall a b, dom a -> dom b -> (comparefn a b <=? 0) = negb (before b a).

Let inorder (a b : A) : Prop := before b a = false.
Let tie (r x : A) : bool := negb (before r x) && negb (before x r).

Lemma insert_Permutation (x : A) (l : list A) :
  Permutation (x :: l) (insert comparefn x l).
Proof.
  induction l as [| y l IH]; simpl; [reflexivity |].
  destruct (comparefn x y <=? 0); [reflexivity |].
  rewrite perm_swap. now apply perm_skip.
Qed.

Lemma Array_sort_Permutation (l : list A) : Permutation l (Array_sort comparefn l).
Proof.
  induction l as [| x l IH]; simpl; [reflexivity |].
  rewrite <- insert_Permutation. now apply perm_skip.
Qed.

Lemma Array_sort_dom (l : list A) : Forall dom l -> Forall dom (Array_sort comparefn l).
Proof. apply Permutation_Forall, Array_sort_Permutation. Qed.

Lemma insert_sorted (x : A) (l : list A) :
  dom x -> Forall dom l ->
  StronglySorted inorder l -> StronglySorted inorder (insert comparefn x l).
Proof.
  intros Hx Hl Hs. induction Hs as [| y l Hs IH Hy]; simpl.
  - repeat constructor.
  - apply Forall_cons_iff in Hl as [Hdy Hdl].
    rewrite comparefn_before by assumption.
    destruct (before y x) eqn:Hyx; simpl.
    + constructor; [now apply IH |].
      apply (Permutation_Forall (insert_Permutation x l)).
      constructor; [| exact Hy].
      unfold inorder. now apply asym.
    + constructor; [now constructor |].
      constructor; [exact Hyx |].
      rewrite Forall_forall in Hy, Hdl |- *. intros z Hz.
      unfold inorder in *. destruct (before z x) eqn:Hzx; [| reflexivity].
      destruct (negtrans z y x (Hdl z Hz) Hdy Hx Hzx) as [H | H].
      * rewrite (Hy z Hz) in H. discriminate.
      * congruence.
Qed.

Lemma Array_sort_sorted (l : list A) :
  Forall dom l -> StronglySorted inorder (Array_sort comparefn l).
Proof.
  induction l as [| x l IH]; simpl; intros Hl; [constructor |].
  apply Forall_cons_iff in Hl as [Hx Hl].
  apply insert_sorted; [assumption | now apply Array_sort_dom | now apply IH].
Qed.

(** Insertion moves [x] past elements strictly before it only, and no
    such element ties with a row that [x] ties with. *)
Lemma insert_ties (r x : A) (l : list A) :
  dom r -> dom x -> Forall dom l ->
  List.filter (tie r) (insert comparefn x l) = List.filter (tie r) (x :: l).
Proof.
  intros Hr Hx Hl. induction l as [| y l IH]; [reflexivity |].
  apply Forall_cons_iff in Hl as [Hy Hl]. simpl insert.
  rewrite comparefn_before by assumption.
  destruct (before y x) eqn:Hyx; simpl negb; cbv iota; [| reflexivity].
  change (List.filter (tie r) (y :: insert comparefn x l))
    with (if tie r y then y :: List.filter (tie r) (insert comparefn x l)
          else List.filter (tie r) (insert comparefn x l)).
  rewrite (IH Hl). simpl.
  destruct (tie r x) eqn:Hrx, (tie r y) eqn:Hry; try reflexivity.
  exfalso. unfold tie in Hrx, Hry.
  apply andb_true_iff in Hrx as [Hrx _], Hry as [_ Hry].
  apply negb_true_iff in Hrx, Hry.
  destruct (negtrans y r x Hy Hr Hx Hyx) as [H | H]; congruence.
Qed.

Lemma Array_sort_ties (r : A) (l : list A) :
  dom r -> Forall dom l ->
  List.filter (tie r) (Array_sort comparefn l) = List.filter (tie r) l.
Proof.
  intros Hr. induction l as [| x l IH]; simpl Array_sort; intros Hl; [reflexivity |].
  apply Forall_cons_iff in Hl as [Hx Hl].
  rewrite insert_ties by (try assumption; now apply Array_sort_dom).
  simpl. now rewrite (IH Hl).
Qed.
End StableInsertion.

Lemma consistent_on_spec (k : string) (R : list Row) :
  consistent_on k R = true ->
  (forall a b, In a R -> In b R -> key_lt k a b = true -> key_lt k b a = false)
  /\ (forall a b c, In a R -> In b R -> In c R ->
        key_lt k a c = true -> key_lt k a b = true \/ key_lt k b c = true).
Proof.
  unfold consistent_on. rewrite forallb_forall. intros H. split.
  - intros a b Ha Hb Hab. specialize (H a Ha). rewrite forallb_forall in H.
    specialize (H b Hb). apply andb_true_iff in H as [H _].
    rewrite Hab in H. simpl in H. now apply negb_true_iff in H.
  - intros a b c Ha Hb Hc Hac. specialize (H a Ha). rewrite forallb_forall in H.
    specialize (H b Hb). apply andb_true_iff in H as [_ H].
    rewrite forallb_forall in H. specialize (H c Hc).
    rewrite Hac in H. simpl in H. now apply orb_true_iff in H.
Qed.

(** A column that holds a number in every row is consistently ordered. *)
Lemma consistent_on_numbers (k : string) (R : list Row) :
  Forall (fun r => is_number (get r k) = true) R -> consistent_on k R = true.
Proof.
  rewrite List.Forall_forall. intros Hnum.
  assert (Hlt : forall a b, In a R -> In b R ->
            exists x y, get a k = VNum x /\ get b k = VNum y
                        /\ key_lt k a b = (x <? y)).
  { intros a b Ha Hb. pose proof (Hnum a Ha) as Hx. pose proof (Hnum b Hb) as Hy.
    unfold key_lt. destruct (get a k); try discriminate.
    destruct (get b k); try discriminate. eauto. }
  unfold consistent_on. apply forallb_forall. intros a Ha.
  apply forallb_forall. intros b Hb.
  destruct (Hlt a b Ha Hb) as (x & y & Hgx & Hgy & Hab).
  destruct (Hlt b a Hb Ha) as (y' & x' & Hgy' & Hgx' & Hba).
  assert (x' = x /\ y' = y) as [-> ->] by (split; congruence).
  apply andb_true_iff. split.
  - rewrite Hab, Hba. destruct (Z.ltb_spec x y), (Z.ltb_spec y x); try reflexivity. lia.
  - apply forallb_forall. intros c Hc.
    destruct (Hlt a c Ha Hc) as (x1 & z & Hgx1 & Hgz & Hac).
    destruct (Hlt b c Hb Hc) as (y1 & z1 & Hgy1 & Hgz1 & Hbc).
    assert (x1 = x /\ y1 = y /\ z1 = z) as (-> & -> & ->) by (repeat split; congruence).
    rewrite Hab, Hac, Hbc.
    destruct (Z.ltb_spec x z), (Z.ltb_spec x y), (Z.ltb_spec y z); try reflexivity. lia.
Qed.

Lemma String_compare_negtrans (a b c : string) :
  String.compare a c = Lt -> String.compare a b = Lt \/ String.compare b c = Lt.
Proof.
  revert b c. induction a as [| x a IH]; intros [| y b] [| z c]; simpl;
    try discriminate; auto.
  unfold Ascii.compare.
  destruct (N.compare_spec (N_of_ascii x) (N_of_ascii z)) as [Hxz | Hxz | Hxz];
    destruct (N.compare_spec (N_of_ascii x) (N_of_ascii y)) as [Hxy | Hxy | Hxy];
    destruct (N.compare_spec (N_of_ascii y) (N_of_ascii z)) as [Hyz | Hyz | Hyz];
    intros H; try discriminate; auto; try lia.
Qed.

Lemma String_ltb_asym (a b : string) : String.ltb a b = true -> String.ltb b a = false.
Proof.
  unfold String.ltb. rewrite (String.compare_antisym b a).
  destruct (String.compare a b); simpl; congruence.
Qed.

Lemma String_ltb_negtrans (a b c : string) :
  String.ltb a c = true -> String.ltb a b = true \/ String.ltb b c = true.
Proof.
  unfold String.ltb. intros H.
  destruct (String.compare a c) eqn:Hac; try discriminate.
  destruct (String_compare_negtrans a b c Hac) as [-> | ->]; auto.
Qed.

(** So is a column that holds a string in every row. *)
Lemma consistent_on_strings (k : string) (R : list Row) :
  Forall (fun r => exists s, get r k = VStr s) R -> consistent_on k R = true.
Proof.
  rewrite List.Forall_forall. intros Hstr.
  unfold consistent_on. apply forallb_forall. intros a Ha.
  apply forallb_forall. intros b Hb.
  destruct (Hstr a Ha) as [x Hx], (Hstr b Hb) as [y Hy].
  apply andb_true_iff. split.
  - unfold key_lt, JS.lt. rewrite Hx, Hy. simpl.
    destruct (String.ltb x y) eqn:Hxy; [| reflexivity].
    now rewrite (String_ltb_asym x y Hxy).
  - apply forallb_forall. intros c Hc. destruct (Hstr c Hc) as [z Hz].
    unfold key_lt, JS.lt. rewrite Hx, Hy, Hz. simpl.
    destruct (String.ltb x z) eqn:Hxz; [| reflexivity]. simpl.
    apply orb_true_iff. now apply String_ltb_negtrans.
Qed.

Lemma comparator_asc_le (k : string) (a b : Row) :
  (key_lt k a b = true -> key_lt k b a = false) ->
  (comparator k asc a b <=? 0) = negb (key_lt k b a).
Proof.
  unfold comparator, gt, key_lt. intros Hasym.
  destruct (lt (get a k) (get b k)).
  - now rewrite Hasym.
  - destruct (lt (get b k) (get a k)); reflexivity.
Qed.

Lemma comparator_desc_le (k : string) (a b : Row) :
  (comparator k desc a b <=? 0) = negb (key_lt k a b).
Proof.
  unfold comparator, gt, key_lt.
  destruct (lt (get a k) (get b k)); [reflexivity |].
  destruct (lt (get b k) (get a k)); reflexivity.
Qed.

(** A row that lacks the key compares equal to every row. *)
Lemma key_equiv_missing (k : string) (r x : Row) :
  get r k = VUndefined -> key_equiv k r x = true.
Proof.
  intros Hr. unfold key_equiv, key_lt, JS.lt. rewrite Hr. simpl.
  destruct (as_string (get x k)); destruct (ToNumber (get x k)); reflexivity.
Qed.

(** C5, as the specification states it, fails: rows that lack the key
    compare equal to every row, so a row without the key between the keys 2
    and 1 keeps both where they are; ascending and descending give the same
    order, and 2 stays before 1.  No order of these rows is ascending and
    keeps the ties, whatever the sort. *)
Lemma sort_mirror_fails_on_missing_key :
  let R : list Row := [ [("n", VNum 2)]; [("id", VStr "u")]; [("n", VNum 1)] ] in
  sortedData R {| key := Some "n"; direction := asc |} = R
  /\ sortedData R {| key := Some "n"; direction := desc |} = R
  /\ ~ sort_mirror "n" R
  /\ ~ (exists A, ascending "n" A /\ ties_kept "n" R A).
Proof.
  intros R.
  assert (Hnot : ~ ascending "n" R).
  { intros Hasc. inversion Hasc as [| a l _ Hall]; subst.
    rewrite List.Forall_forall in Hall.
    specialize (Hall [("n", VNum 1)] ltac:(right; now left)).
    discriminate Hall. }
  split; [reflexivity |]. split; [reflexivity |]. split.
  - intros (_ & Hasc & _). exact (Hnot Hasc).
  - intros (A & Hasc & Hties).
    specialize (Hties [("id", VStr "u")] ltac:(right; now left)).
    assert (Hall : forall l, List.filter (key_equiv "n" [("id", VStr "u")]) l = l).
    { intros l. induction l as [| x l IH]; simpl; [reflexivity |].
      rewrite (key_equiv_missing "n" [("id", VStr "u")] x eq_refl). now rewrite IH. }
    rewrite !Hall in Hties. subst A. exact (Hnot Hasc).
Qed.

(** C5, amended. For a key that is not the empty string and rows on which
    the comparison of the key's values is a consistent ordering (all
    numbers, or all strings, for instance), sorting ascending gives a
    rearrangement in ascending order in which the rows that compare equal
    keep their order, and sorting that result descending gives a
    rearrangement in descending order in which they keep it too. *)
Theorem sort_mirror_consistent (k : string) (R : list Row) :
  k <> "" -> consistent_on k R = true -> sort_mirror k R.
Proof.
  intros Hk Hcons.
  destruct (consistent_on_spec k R Hcons) as [Hasym Hneg].
  unfold sort_mirror, sortedData. simpl.
  destruct (String.eqb_spec k "") as [-> | _]; [contradiction |]. simpl.
  set (A := Array_sort (comparator k asc) R).
  set (D := Array_sort (comparator k desc) A).
  set (dom := fun r : Row => In r R).
  assert (HdomR : Forall dom R) by (apply List.Forall_forall; now intros r Hr).
  assert (HpA : Permutation R A) by apply Array_sort_Permutation.
  assert (HdomA : Forall dom A) by exact (Permutation_Forall HpA HdomR).
  assert (Hle : forall a b, dom a -> dom b ->
            (comparator k asc a b <=? 0) = negb (key_lt k b a)).
  { intros a b Ha Hb. apply comparator_asc_le. now apply Hasym. }
  assert (HtA : ties_kept k R A).
  { intros r Hr.
    apply (Array_sort_ties (comparator k asc) (key_lt k) dom Hneg Hle r R Hr HdomR). }
  split; [exact HpA |]. split.
  { exact (Array_sort_sorted (comparator k asc) (key_lt k) dom Hasym Hneg Hle R HdomR). }
  split; [exact HtA |].
  set (flip := fun a b : Row => key_lt k b a).
  assert (Hasym' : forall a b, dom a -> dom b -> flip a b = true -> flip b a = false).
  { intros a b Ha Hb. unfold flip. now apply Hasym. }
  assert (Hneg' : forall a b c, dom a -> dom b -> dom c ->
            flip a c = true -> flip a b = true \/ flip b c = true).
  { intros a b c Ha Hb Hc Hac. unfold flip in *.
    destruct (Hneg c b a Hc Hb Ha Hac); [now right | now left]. }
  assert (Hle' : forall a b, dom a -> dom b ->
            (comparator k desc a b <=? 0) = negb (flip b a)).
  { intros a b _ _. apply comparator_desc_le. }
  split; [| split].
  - etransitivity; [exact HpA |]. apply Array_sort_Permutation.
  - exact (Array_sort_sorted (comparator k desc) flip dom Hasym' Hneg' Hle' A HdomA).
  - intros r Hr. rewrite <- (HtA r Hr).
    pose proof (Array_sort_ties (comparator k desc) flip dom Hneg' Hle' r A Hr HdomA)
      as Hties.
    assert (Hext : forall l, List.filter (key_equiv k r) l
                  = List.filter (fun x => negb (flip r x) && negb (flip x r)) l).
    { intros l. apply filter_ext. intros x. unfold key_equiv, flip. apply andb_comm. }
    rewrite !Hext. exact Hties.
Qed.

Lemma sort_mirror_consistent_witness :
  let R : list Row :=
    [ [("id", VStr "a"); ("n", VNum 2)]; [("id", VStr "b"); ("n", VNum 1)];
      [("id", VStr "c"); ("n", VNum 2)] ] in
  sort_mirror "n" R
  /\ sortedData R {| key := Some "n"; direction := asc |}
     = [ [("id", VStr "b"); ("n", VNum 1)]; [("id", VStr "a"); ("n", VNum 2)];
         [("id", VStr "c"); ("n", VNum 2)] ]
  /\ sortedData (sortedData R {| key := Some "n"; direction := asc |})
                {| key := Some "n"; direction := desc |}
     = [ [("id", VStr "a"); ("n", VNum 2)]; [("id", VStr "c"); ("n", VNum 2)];
         [("id", VStr "b"); ("n", VNum 1)] ].
Proof.
  intros R. split; [| split; reflexivity].
  apply (sort_mirror_consistent "n" R); [discriminate | reflexivity].
Defined.

(** * Further properties of the pipeline *)

(** ** Pages *)

Lemma slice_sublist {A : Type} (l : list A) (s e : Z) : sublist (slice l s e) l.
Proof.
  unfold slice. etransitivity; [apply sublist_take | apply sublist_drop].
Qed.

(** X1. For a page size [p > 0] and a page number at least 1, the page is
    empty exactly when the page number is beyond [totalPages]: every page
    up to the last shows a row, and a stale page number past the last shows
    none. *)
Theorem page_empty_iff_beyond_last (R : list Row) (cp p : Z) :
  0 < p -> 1 <= cp ->
  (paginatedData R cp p = [] <-> totalPages R p < cp).
Proof.
  intros Hp Hcp.
  pose proof (ceil_div_bounds (Z.of_nat (length R)) p Hp) as Hn.
  fold (totalPages R p) in Hn.
  rewrite paginatedData_chunk by lia.
  set (P := Z.to_nat p). set (K := Z.to_nat (cp - 1)).
  assert (HP : (0 < P)%nat) by (unfold P; lia).
  split.
  - intros Hnil. apply (f_equal (@length Row)) in Hnil.
    rewrite length_take, length_drop in Hnil. simpl in Hnil.
    assert (Hle : (length R <= K * P)%nat) by lia.
    unfold K, P in Hle. nia.
  - intros Hlt. rewrite drop_ge; [apply take_nil |].
    unfold K, P. nia.
Qed.

Lemma page_empty_iff_beyond_last_witness :
  let R : list Row := [ [("n", VNum 1)]; [("n", VNum 2)]; [("n", VNum 3)] ] in
  paginatedData R 3 2 = [] /\ paginatedData R 2 2 <> [].
Proof.
  intros R. split.
  - apply (proj2 (page_empty_iff_beyond_last R 3 2 ltac:(lia) ltac:(lia))).
    vm_compute. reflexivity.
  - intros Hnil.
    apply (proj1 (page_empty_iff_beyond_last R 2 2 ltac:(lia) ltac:(lia))) in Hnil.
    vm_compute in Hnil. discriminate.
Defined.

(** X2. For a page size [p > 0] there are no pages exactly when there are
    no rows, and the pagination bar is rendered exactly when there are more
    rows than fit on one page and the block around it is rendered: no fetch
    is pending in Component.svelte, no fetch is pending and no error is set
    in the API variant, and always in the provider variant. *)
Theorem pagination_shown_iff (R : list Row) (p : Z) :
  0 < p ->
  (totalPages R p = 0 <-> R = [])
  /\ (forall loading,
        pagination_shown loading (totalPages R p) = true
        <-> loading = false /\ p < Z.of_nat (length R))
  /\ (forall loading error,
        Api.pagination_shown loading error (totalPages R p) = true
        <-> loading = false /\ (error = None \/ error = Some "")
            /\ p < Z.of_nat (length R))
  /\ (Provider.pagination_shown (totalPages R p) = true <-> p < Z.of_nat (length R)).
Proof.
  intros Hp.
  pose proof (ceil_div_bounds (Z.of_nat (length R)) p Hp) as Hn.
  fold (totalPages R p) in Hn.
  assert (Hbar : (1 <? totalPages R p) = true <-> p < Z.of_nat (length R)).
  { rewrite Z.ltb_lt. split; intros H; nia. }
  split; [| split; [| split]].
  - split.
    + intros H0. rewrite H0 in Hn. destruct R; [reflexivity | simpl in Hn; lia].
    + intros ->. reflexivity.
  - intros loading. unfold pagination_shown.
    rewrite andb_true_iff, negb_true_iff, Hbar. reflexivity.
  - intros loading error. unfold Api.pagination_shown.
    rewrite !andb_true_iff, !negb_true_iff, Hbar.
    assert (Herr : match error with Some m => truthy (VStr m) | None => false end = false
                   <-> error = None \/ error = Some "").
    { destruct error as [m |]; simpl.
      - rewrite negb_false_iff. split.
        + intros Hm. right. apply String.eqb_eq in Hm. now subst.
        + intros [Hm | Hm]; [discriminate |]. injection Hm as ->. reflexivity.
      - split; [now left | reflexivity]. }
    rewrite Herr. tauto.
  - exact Hbar.
Qed.

Lemma pagination_shown_iff_witness :
  let R : list Row := [ [("n", VNum 1)]; [("n", VNum 2)]; [("n", VNum 3)] ] in
  pagination_shown false (totalPages R 2) = true
  /\ pagination_shown false (totalPages R 3) = false
  /\ pagination_shown true (totalPages R 2) = false
  /\ Api.pagination_shown false None (totalPages R 2) = true.
Proof.
  intros R.
  destruct (pagination_shown_iff R 2 ltac:(lia)) as (_ & H2 & H2api & _).
  destruct (pagination_shown_iff R 3 ltac:(lia)) as (_ & H3 & _).
  split; [| split; [| split]].
  - apply (proj2 (H2 false)). split; [reflexivity | simpl; lia].
  - destruct (pagination_shown false (totalPages R 3)) eqn:Hs; [| reflexivity].
    apply (proj1 (H3 false)) in Hs. simpl in Hs. lia.
  - destruct (pagination_shown true (totalPages R 2)) eqn:Hs; [| reflexivity].
    apply (proj1 (H2 true)) in Hs. destruct Hs as [Hl _]. discriminate.
  - apply (proj2 (H2api false None)).
    split; [reflexivity |]. split; [now left | simpl; lia].
Defined.

Lemma page_buttons_in_range (tp cp b : Z) :
  In b (page_buttons tp cp) -> 1 <= b <= tp.
Proof.
  unfold page_buttons. intros Hb. apply in_map_iff in Hb as (i & <- & Hi).
  apply in_seq in Hi. unfold page_button.
  destruct (Z.leb_spec tp 5); [lia |].
  destruct (Z.leb_spec cp 3); [lia |].
  destruct (Z.geb_spec cp (tp - 2)); lia.
Qed.

(** X3. Whatever the current page, stale or not, every page-number button
    is a page between 1 and [totalPages], there are [min(5, totalPages)] of
    them in increasing steps of one, and the current page is one of them
    whenever it is itself between 1 and [totalPages]. *)
Theorem page_buttons_valid (tp cp : Z) :
  length (page_buttons tp cp) = Z.to_nat (Z.min 5 tp)
  /\ (forall b, In b (page_buttons tp cp) -> 1 <= b <= tp)
  /\ page_buttons tp cp = seqZ (page_button tp cp 0) (Z.min 5 tp)
  /\ (1 <= cp <= tp -> In cp (page_buttons tp cp)).
Proof.
  unfold page_buttons. split; [| split; [| split]].
  - now rewrite length_map, length_seq.
  - intros b. apply page_buttons_in_range.
  - unfold seqZ. apply map_ext. intros i. unfold page_button.
    destruct (Z.leb_spec tp 5); [lia |].
    destruct (Z.leb_spec cp 3); [lia |].
    destruct (Z.geb_spec cp (tp - 2)); lia.
  - intros Hcp. apply in_map_iff.
    set (i := if tp <=? 5 then cp - 1
              else if cp <=? 3 then cp - 1
              else if cp >=? tp - 2 then cp - (tp - 4) else 2).
    exists (Z.to_nat i). unfold page_button, i. split.
    + destruct (Z.leb_spec tp 5); [lia |].
      destruct (Z.leb_spec cp 3); [lia |].
      destruct (Z.geb_spec cp (tp - 2)); lia.
    + apply in_seq.
      destruct (Z.leb_spec tp 5); [lia |].
      destruct (Z.leb_spec cp 3); [lia |].
      destruct (Z.geb_spec cp (tp - 2)); lia.
Qed.

Lemma page_buttons_valid_witness :
  In 40 (page_buttons 40 40) /\ In 7 (page_buttons 9 7).
Proof.
  split.
  - apply (proj2 (proj2 (proj2 (page_buttons_valid 40 40)))). lia.
  - apply (proj2 (proj2 (proj2 (page_buttons_valid 9 7)))). lia.
Defined.

(** X4. The page handlers keep the current page in range: Previous never
    goes below 1 and Next never above [totalPages]; from a page between 1
    and [totalPages], Previous, Next and every page-number button lead to a
    page between 1 and [totalPages]; and Previous undoes Next below the
    last page. *)
Theorem page_navigation_in_range (tp : Z) (s : State) :
  1 <= currentPage (previousPage s)
  /\ currentPage (nextPage tp s) <= tp
  /\ (1 <= currentPage s <= tp ->
      1 <= currentPage (previousPage s) <= tp
      /\ 1 <= currentPage (nextPage tp s) <= tp
      /\ (forall b, In b (page_buttons tp (currentPage s)) ->
            1 <= currentPage (goToPage b s) <= tp)
      /\ (currentPage s < tp -> previousPage (nextPage tp s) = s))
  /\ (currentPage s = 1 -> previousPage s = s).
Proof.
  destruct s as [cp st sc sel menu ld err rows sch]; simpl.
  split; [lia |]. split; [lia |]. split.
  - intros Hcp. split; [lia |]. split; [lia |]. split.
    + intros b Hb. exact (page_buttons_in_range tp cp b Hb).
    + intros Hlt. unfold previousPage, nextPage, set_currentPage. simpl.
      f_equal. lia.
  - intros ->. reflexivity.
Qed.

Lemma page_navigation_in_range_witness :
  currentPage (nextPage 4 (set_currentPage 4 initial)) = 4
  /\ previousPage (nextPage 4 (set_currentPage 2 initial)) = set_currentPage 2 initial.
Proof.
  pose proof (page_navigation_in_range 4 (set_currentPage 4 initial)) as (_ & _ & H4 & _).
  pose proof (page_navigation_in_range 4 (set_currentPage 2 initial)) as (_ & _ & H2 & _).
  split.
  - destruct (H4 ltac:(simpl; lia)) as (_ & Hn & _).
    apply Z.le_antisymm; [apply Hn |]. simpl. lia.
  - destruct (H2 ltac:(simpl; lia)) as (_ & _ & _ & Hundo).
    apply Hundo. simpl. lia.
Defined.

(** ** Rows on screen *)

(** The sort stage rearranges and nothing else, whatever the comparator
    does on the values. *)
Lemma sortedData_Permutation (R : list Row) (c : SortConfig) :
  Permutation R (sortedData R c).
Proof.
  unfold sortedData. destruct (key c) as [k |]; [| reflexivity].
  destruct (truthy (VStr k)); [apply Array_sort_Permutation | reflexivity].
Qed.

(** X5. Sorting never adds, drops or repeats a row, for any key and any
    values in the column, comparable or not: the sorted rows are a
    rearrangement of the filtered rows, so the record count and the number
    of pages do not depend on the sort; with no key, or the empty key, the
    rows are returned as they are. *)
Theorem sortedData_rearranges (R : list Row) (c : SortConfig) (p : Z) :
  Permutation R (sortedData R c)
  /\ length (sortedData R c) = length R
  /\ totalPages (sortedData R c) p = totalPages R p
  /\ sortedData R {| key := None; direction := direction c |} = R
  /\ sortedData R {| key := Some ""; direction := direction c |} = R.
Proof.
  pose proof (sortedData_Permutation R c) as Hp.
  assert (Hlen : length (sortedData R c) = length R)
    by (symmetry; now apply Permutation_length).
  repeat split; try assumption.
  unfold totalPages. now rewrite Hlen.
Qed.

(** X6. Every row on screen is a row of [allRows] that passes the filter,
    no row is shown more often than it occurs in [allRows], and with a page
    size [p > 0] and a current page at least 1 at most [p] rows are
    shown. *)
Theorem visibleRows_from_allRows (p : Props) (s : State) :
  Fixture.visibleRows p s ⊆+ allRows s
  /\ (forall row, In row (Fixture.visibleRows p s) ->
        In row (allRows s)
        /\ filter_callback (searchTerm s) (Fixture.availableColumns (columns p)) row = true)
  /\ (0 < itemsPerPage p -> 1 <= currentPage s ->
      Z.of_nat (length (Fixture.visibleRows p s)) <= itemsPerPage p).
Proof.
  unfold Fixture.visibleRows.
  set (F := filteredData (allRows s) (searchTerm s) (Fixture.availableColumns (columns p))).
  set (Sd := sortedData F (sortConfig s)).
  assert (Hsub : paginatedData Sd (currentPage s) (itemsPerPage p) ⊆+ F).
  { etransitivity; [apply sublist_submseteq, slice_sublist |].
    apply Permutation_submseteq. symmetry. apply sortedData_Permutation. }
  split; [| split].
  - etransitivity; [exact Hsub |].
    apply sublist_submseteq, filteredData_sublist.
  - intros row Hin. apply list_elem_of_In in Hin.
    apply (fun H => elem_of_submseteq _ _ _ H Hsub) in Hin.
    apply list_elem_of_In in Hin.
    unfold F, filteredData in Hin. now apply filter_In in Hin.
  - intros Hp Hcp. rewrite paginatedData_chunk, length_take by lia. lia.
Qed.

Lemma visibleRows_from_allRows_witness :
  let p := {| itemsPerPage := 2; searchable := true; sortable := true;
              selectable := true; showActions := true; columns := ["n"] |} in
  let s := set_allRows [ [("n", VNum 1)]; [("n", VNum 2)]; [("n", VNum 3)] ] initial in
  Z.of_nat (length (Fixture.visibleRows p s)) <= 2.
Proof.
  intros p s.
  apply (proj2 (proj2 (visibleRows_from_allRows p s))); simpl; lia.
Defined.

(** ** Selection of single rows and the action menu *)

(** X7. The checkbox of a row toggles the identity of the row and no
    other: after [handleRowSelect] the identity is selected exactly when it
    was not before, every other identity is as before, a second click
    restores the set, and with selection disabled nothing changes. *)
Theorem handleRowSelect_toggles (S : gset value) (rowId : value) :
  (rowId ∈ handleRowSelect true S rowId <-> rowId ∉ S)
  /\ (forall j, j <> rowId -> (j ∈ handleRowSelect true S rowId <-> j ∈ S))
  /\ handleRowSelect true (handleRowSelect true S rowId) rowId = S
  /\ handleRowSelect false S rowId = S.
Proof.
  unfold handleRowSelect. simpl.
  destruct (decide (rowId ∈ S)) as [Hin | Hout].
  - split; [set_solver |]. split; [set_solver |]. split; [| reflexivity].
    destruct (decide (rowId ∈ S ∖ {[rowId]})) as [Hin' | _]; [set_solver |].
    apply set_eq. intros x. destruct (decide (x = rowId)); set_solver.
  - split; [set_solver |]. split; [set_solver |]. split; [| reflexivity].
    destruct (decide (rowId ∈ S ∪ {[rowId]})) as [_ | Hout']; set_solver.
Qed.

(** X8. After select-all on a page whose rows have distinct identities, the
    header checkbox and the checkboxes of the rows agree: when the toggle
    selects (the count of the selection differed from the page's, and the
    page is not empty) the header and every row of the page are checked;
    when it clears, the header and every row are unchecked. *)
Theorem select_all_checkboxes (S : gset value) (P : list Row) :
  P <> [] -> NoDup (map Fixture.getRowId P) ->
  let S' := Fixture.handleSelectAll true S P in
  (size S <> length P ->
     Fixture.header_checked S' P = true
     /\ forall row, In row P -> Fixture.row_checked S' row = true)
  /\ (size S = length P ->
     Fixture.header_checked S' P = false
     /\ forall row, Fixture.row_checked S' row = false).
Proof.
  intros Hne Hnd S'.
  assert (Hlen : (0 <? length P)%nat = true)
    by (destruct P; [contradiction | reflexivity]).
  split; intros Hsz.
  - assert (HS' : S' = list_to_set (map Fixture.getRowId P))
      by (apply handleSelectAll_replace; now left).
    split.
    + unfold Fixture.header_checked. rewrite Hlen, andb_true_r, HS'.
      rewrite size_list_to_set by exact Hnd. rewrite length_map.
      apply Nat.eqb_refl.
    + intros row Hin. unfold Fixture.row_checked. apply bool_decide_eq_true.
      rewrite HS'. apply elem_of_list_to_set, list_elem_of_In. now apply in_map.
  - assert (HS' : S' = ∅) by (now apply handleSelectAll_clear).
    split.
    + unfold Fixture.header_checked. rewrite HS', size_empty.
      destruct P; [contradiction | reflexivity].
    + intros row. unfold Fixture.row_checked. rewrite HS'.
      apply bool_decide_eq_false. set_solver.
Qed.

Lemma select_all_checkboxes_witness :
  let P : list Row := [ [("_id", VStr "a")]; [("_id", VStr "b")] ] in
  Fixture.header_checked (Fixture.handleSelectAll true {[ VStr "x" ]} P) P = true.
Proof.
  intros P.
  assert (Hnd : NoDup (map Fixture.getRowId P)).
  { apply (bool_decide_unpack _). vm_compute. exact I. }
  apply (proj1 (select_all_checkboxes {[ VStr "x" ]} P ltac:(discriminate) Hnd)).
  vm_compute. discriminate.
Defined.

(** X9. The action menu has one slot: a click on the trigger of a row
    opens the menu of that row when it was closed and closes it when it was
    open, and after the click no row with another identity has its menu
    open. *)
Theorem action_menu_single_slot (showActionMenu : value) (row other : Row) :
  let m' := toggleActionMenu showActionMenu (Fixture.getRowId row) in
  menu_open m' (Fixture.getRowId row)
    = negb (menu_open showActionMenu (Fixture.getRowId row))
  /\ (Fixture.getRowId other <> Fixture.getRowId row ->
      menu_open m' (Fixture.getRowId other) = false).
Proof.
  intros m'. subst m'. unfold toggleActionMenu, menu_open.
  pose proof (Fixture_getRowId_truthy row) as Hrow.
  pose proof (Fixture_getRowId_truthy other) as Hother.
  set (i := Fixture.getRowId row) in *.
  set (j := Fixture.getRowId other) in *.
  destruct (bool_decide (showActionMenu = i)) eqn:Hopen; simpl.
  - split.
    + apply bool_decide_eq_false. intros Heq. rewrite <- Heq in Hrow. discriminate.
    + intros _. apply bool_decide_eq_false. intros Heq.
      rewrite <- Heq in Hother. discriminate.
  - split.
    + now apply bool_decide_eq_true.
    + intros Hdiff. apply bool_decide_eq_false. congruence.
Qed.

Lemma action_menu_single_slot_witness :
  let a : Row := [("_id", VStr "a")] in
  let b : Row := [("_id", VStr "b")] in
  menu_open (toggleActionMenu (Fixture.getRowId b) (Fixture.getRowId a))
            (Fixture.getRowId b) = false.
Proof.
  intros a b.
  apply (proj2 (action_menu_single_slot (Fixture.getRowId b) a b)).
  vm_compute. discriminate.
Defined.

(** ** The order after a sort *)

(** Two orders of the same elements that are both sorted and both keep the
    ties of the same list are the same order. *)
Section StableUnique.
Context {A : Type}.
Variable before : A -> A -> bool.
Variable dom : A -> Prop.

Hypothesis asym :
  forall a b, dom a -> dom b -> before a b = true -> before b a = false.

Let inorder (a b : A) : Prop := before b a = false.
Let tie (r x : A) : bool := negb (before r x) && negb (before x r).

Lemma before_irrefl (a : A) : dom a -> before a a = false.
Proof.
  intros Ha. destruct (before a a) eqn:H; [| reflexivity].
  now rewrite (asym a a Ha Ha H) in H.
Qed.

Lemma stable_sorted_unique (l1 l2 : list A) :
  Forall dom l1 -> Permutation l1 l2 ->
  StronglySorted inorder l1 -> StronglySorted inorder l2 ->
  (forall r, dom r -> List.filter (tie r) l1 = List.filter (tie r) l2) ->
  l1 = l2.
Proof.
  revert l2. induction l1 as [| x l1 IH]; intros l2 Hdom Hperm Hs1 Hs2 Hties.
  - now apply Permutation_nil in Hperm.
  - destruct l2 as [| y l2].
    { symmetry in Hperm. now apply Permutation_nil in Hperm. }
    apply Forall_cons_iff in Hdom as [Hx Hdom].
    assert (Hy : dom y).
    { assert (Hall : Forall dom (y :: l2))
        by (apply (Permutation_Forall Hperm); now constructor).
      now apply Forall_cons_iff in Hall as [Hy _]. }
    apply StronglySorted_inv in Hs1 as [Hs1 Hx1].
    apply StronglySorted_inv in Hs2 as [Hs2 Hy2].
    assert (Hxy : x = y).
    { pose proof (Hties x Hx) as Ht. simpl in Ht.
      unfold tie at 1 in Ht. rewrite (before_irrefl x Hx) in Ht. simpl in Ht.
      destruct (tie x y) eqn:Htie; [now injection Ht |].
      exfalso. unfold tie in Htie. apply andb_false_iff in Htie.
      rewrite !negb_false_iff in Htie. destruct Htie as [Hb | Hb].
      - assert (Hin : In x (y :: l2))
          by (apply (Permutation_in _ Hperm); now left).
        destruct Hin as [-> | Hin].
        + rewrite (before_irrefl x Hx) in Hb. discriminate.
        + rewrite List.Forall_forall in Hy2. specialize (Hy2 x Hin).
          unfold inorder in Hy2. congruence.
      - assert (Hin : In y (x :: l1))
          by (apply (Permutation_in _ (Permutation_sym Hperm)); now left).
        destruct Hin as [<- | Hin].
        + rewrite (before_irrefl x Hx) in Hb. discriminate.
        + rewrite List.Forall_forall in Hx1. specialize (Hx1 y Hin).
          unfold inorder in Hx1. congruence. }
    subst y. f_equal. apply IH; try assumption.
    + now apply Permutation_cons_inv in Hperm.
    + intros r Hr. specialize (Hties r Hr). simpl in Hties.
      destruct (tie r x); [now injection Hties | exact Hties].
Qed.
End StableUnique.

(** One sort of a list whose rows are among consistently ordered rows:
    a rearrangement, in order for the direction, with the ties kept. *)
Lemma Array_sort_direction (k : string) (d : Direction) (R l : list Row) :
  consistent_on k R = true -> Forall (fun r => In r R) l ->
  let S := Array_sort (comparator k d) l in
  Permutation l S
  /\ StronglySorted (fun a b => dir_before k d b a = false) S
  /\ (forall r, In r R ->
        List.filter (key_equiv k r) S = List.filter (key_equiv k r) l).
Proof.
  intros Hcons Hl S.
  destruct (consistent_on_spec k R Hcons) as [Hasym Hneg].
  split; [apply Array_sort_Permutation |].
  destruct d; simpl in *.
  - assert (Hle : forall a b, In a R -> In b R ->
              (comparator k asc a b <=? 0) = negb (key_lt k b a)).
    { intros a b Ha Hb. apply comparator_asc_le. now apply Hasym. }
    split.
    + exact (Array_sort_sorted (comparator k asc) (key_lt k) _ Hasym Hneg Hle l Hl).
    + intros r Hr.
      exact (Array_sort_ties (comparator k asc) (key_lt k) _ Hneg Hle r l Hr Hl).
  - set (flip := fun a b : Row => key_lt k b a).
    assert (Hasym' : forall a b, In a R -> In b R -> flip a b = true -> flip b a = false).
    { intros a b Ha Hb. unfold flip. now apply Hasym. }
    assert (Hneg' : forall a b c, In a R -> In b R -> In c R ->
              flip a c = true -> flip a b = true \/ flip b c = true).
    { intros a b c Ha Hb Hc Hac. unfold flip in *.
      destruct (Hneg c b a Hc Hb Ha Hac); [now right | now left]. }
    assert (Hle' : forall a b, In a R -> In b R ->
              (comparator k desc a b <=? 0) = negb (flip b a)).
    { intros a b _ _. apply comparator_desc_le. }
    split.
    + exact (Array_sort_sorted (comparator k desc) flip _ Hasym' Hneg' Hle' l Hl).
    + intros r Hr.
      pose proof (Array_sort_ties (comparator k desc) flip _ Hneg' Hle' r l Hr Hl) as Ht.
      assert (Hext : forall l', List.filter (key_equiv k r) l'
                = List.filter (fun x => negb (flip r x) && negb (flip x r)) l').
      { intros l'. apply filter_ext. intros x. unfold key_equiv, flip. apply andb_comm. }
      rewrite !Hext. exact Ht.
Qed.

(** X10. On a key that is not empty and rows whose values under the key
    are consistently ordered, the order a sort gives depends on the rows
    and their order before any sorting only: sorting rows that were already
    sorted, in either direction, gives what sorting the original rows
    gives.  So sorting ascending and then descending is the descending sort,
    and sorting twice in one direction is sorting once. *)
Theorem sort_forgets_previous_sort (k : string) (d d' : Direction) (R : list Row) :
  k <> "" -> consistent_on k R = true ->
  sortedData (sortedData R {| key := Some k; direction := d' |})
             {| key := Some k; direction := d |}
  = sortedData R {| key := Some k; direction := d |}.
Proof.
  intros Hk Hcons. unfold sortedData. simpl.
  destruct (String.eqb_spec k "") as [-> | _]; [contradiction |]. simpl.
  destruct (consistent_on_spec k R Hcons) as [Hasym Hneg].
  assert (HR : Forall (fun r => In r R) R) by (apply List.Forall_forall; auto).
  destruct (Array_sort_direction k d' R R Hcons HR) as (HpB & _ & HtB).
  set (B := Array_sort (comparator k d') R) in *.
  assert (HB : Forall (fun r => In r R) B) by exact (Permutation_Forall HpB HR).
  destruct (Array_sort_direction k d R B Hcons HB) as (Hp1 & Hs1 & Ht1).
  destruct (Array_sort_direction k d R R Hcons HR) as (Hp2 & Hs2 & Ht2).
  apply (stable_sorted_unique (dir_before k d) (fun r => In r R)).
  - intros a b Ha Hb. destruct d; simpl; now apply Hasym.
  - exact (Permutation_Forall Hp1 HB).
  - rewrite <- Hp1, <- Hp2. now symmetry.
  - exact Hs1.
  - exact Hs2.
  - intros r Hr.
    assert (Hext : forall l, List.filter
                (fun x => negb (dir_before k d r x) && negb (dir_before k d x r)) l
                = List.filter (key_equiv k r) l).
    { intros l. apply filter_ext. intros x. unfold key_equiv.
      destruct d; simpl; [reflexivity | apply andb_comm]. }
    rewrite !Hext, (Ht1 r Hr), (Ht2 r Hr). now apply HtB.
Qed.

Lemma sort_forgets_previous_sort_witness :
  let R : list Row :=
    [ [("id", VStr "a"); ("n", VNum 2)]; [("id", VStr "b"); ("n", VNum 1)];
      [("id", VStr "c"); ("n", VNum 2)] ] in
  sortedData (sortedData R {| key := Some "n"; direction := asc |})
             {| key := Some "n"; direction := desc |}
  = sortedData R {| key := Some "n"; direction := desc |}.
Proof.
  intros R.
  apply (sort_forgets_previous_sort "n" desc asc R); [discriminate | reflexivity].
Defined.

(** ** Search terms *)

#[local] Arguments String.append !_ _ / : simpl nomatch.

Lemma string_app_assoc (a b c : string) : ((a ++ b) ++ c = a ++ (b ++ c))%string.
Proof. induction a as [| x a IH]; simpl; [reflexivity | now rewrite IH]. Qed.

Lemma prefix_app (t s : string) :
  String.prefix t s = true <-> exists q, s = (t ++ q)%string.
Proof.
  revert s. induction t as [| x t IH]; intros [| y s].
  - split; [intros _; now exists ""%string | reflexivity].
  - split; [intros _; now exists (String y s) | reflexivity].
  - split; [discriminate | intros [q Hq]; discriminate].
  - change (String.prefix (String x t) (String y s))
      with (if ascii_dec x y then String.prefix t s else false).
    destruct (ascii_dec x y) as [-> | Hne].
    + rewrite IH. split; intros [q Hq]; exists q; simpl in *; congruence.
    + split; [discriminate | intros [q Hq]; simpl in Hq; congruence].
Qed.

Lemma includes_app (s t : string) :
  includes s t = true <-> exists p q, s = (p ++ t ++ q)%string.
Proof.
  induction s as [| x s IH].
  - change (includes "" t) with (String.prefix t "" || false).
    rewrite orb_false_r, prefix_app. split.
    + intros [q Hq]. now exists ""%string, q.
    + intros (p & q & Hpq). destruct p; simpl in Hpq; [now exists q | discriminate].
  - change (includes (String x s) t)
      with (String.prefix t (String x s) || includes s t).
    rewrite orb_true_iff, prefix_app, IH. split.
    + intros [[q Hq] | (p & q & Hpq)].
      * now exists ""%string, q.
      * exists (String x p), q. simpl. now rewrite Hpq.
    + intros (p & q & Hpq). destruct p as [| y p]; simpl in Hpq.
      * left. now exists q.
      * right. exists p, q. congruence.
Qed.

Lemma includes_trans (s m t : string) :
  includes s m = true -> includes m t = true -> includes s t = true.
Proof.
  rewrite !includes_app. intros (p & q & ->) (p' & q' & ->).
  exists (p ++ p')%string, (q' ++ q)%string.
  now rewrite !string_app_assoc.
Qed.

Lemma includes_empty_l (t : string) : includes "" t = true -> t = "".
Proof.
  rewrite includes_app. intros (p & q & H).
  destruct p; [destruct t; [reflexivity | discriminate] | discriminate].
Qed.

Lemma lower_ascii_idem (c : ascii) : lower_ascii (lower_ascii c) = lower_ascii c.
Proof. destruct c as [[] [] [] [] [] [] [] []]; reflexivity. Qed.

Lemma toLowerCase_idem (s : string) : toLowerCase (toLowerCase s) = toLowerCase s.
Proof.
  induction s as [| c s IH]; simpl; [reflexivity |].
  now rewrite lower_ascii_idem, IH.
Qed.

Lemma toLowerCase_empty (s : string) : toLowerCase s = "" <-> s = "".
Proof. destruct s; simpl; split; intros H; try reflexivity; discriminate. Qed.

Lemma filter_callback_narrow (t t' : string) (C : list string) (r : Row) :
  includes (toLowerCase t') (toLowerCase t) = true ->
  filter_callback t' C r = true -> filter_callback t C r = true.
Proof.
  intros Hinc. unfold filter_callback. simpl.
  destruct (String.eqb_spec t "") as [-> | Ht]; [reflexivity |].
  destruct (String.eqb_spec t' "") as [-> | Ht']; simpl.
  - apply includes_empty_l in Hinc.
    apply (proj1 (toLowerCase_empty t)) in Hinc. contradiction.
  - rewrite !existsb_exists. intros (col & Hcol & Hm). exists col.
    split; [exact Hcol |]. unfold cell_matches in *.
    now apply (includes_trans _ (toLowerCase t')).
Qed.

Lemma filter_filter_narrow {A : Type} (f g : A -> bool) (l : list A) :
  (forall x, g x = true -> f x = true) ->
  List.filter g (List.filter f l) = List.filter g l.
Proof.
  intros Hgf. induction l as [| x l IH]; simpl; [reflexivity |].
  destruct (f x) eqn:Hf; simpl.
  - now rewrite IH.
  - destruct (g x) eqn:Hg; [| exact IH].
    rewrite (Hgf x Hg) in Hf. discriminate.
Qed.

(** X11. Refining a search never brings a row back: when the new term
    contains the old one (case set aside), filtering with the new term gives
    the rows that filtering the old result with it gives, a subsequence of
    the old result; in particular filtering twice with one term is filtering
    once. *)
Theorem search_refinement (R : list Row) (t t' : string) (C : list string) :
  includes (toLowerCase t') (toLowerCase t) = true ->
  filteredData (filteredData R t C) t' C = filteredData R t' C
  /\ sublist (filteredData R t' C) (filteredData R t C).
Proof.
  intros Hinc.
  assert (Heq : filteredData (filteredData R t C) t' C = filteredData R t' C).
  { unfold filteredData. apply filter_filter_narrow.
    intros r. now apply filter_callback_narrow. }
  split; [exact Heq |]. rewrite <- Heq. apply filteredData_sublist.
Qed.

Lemma search_refinement_witness :
  let R : list Row := [ [("name", VStr "Anna")]; [("name", VStr "Ben")];
                        [("name", VStr "Hannah")] ] in
  filteredData (filteredData R "AN" ["name"]) "ann" ["name"]
  = filteredData R "ann" ["name"]
  /\ filteredData R "ann" ["name"]
     = [ [("name", VStr "Anna")]; [("name", VStr "Hannah")] ]
  /\ filteredData R "x" ["name"] = filteredData (filteredData R "x" ["name"]) "x" ["name"].
Proof.
  intros R. split; [| split; [reflexivity |]].
  - apply (proj1 (search_refinement R "AN" "ann" ["name"] eq_refl)).
  - symmetry. apply (proj1 (search_refinement R "x" "x" ["name"] eq_refl)).
Defined.

(** X12. The search ignores the case of the term, and it looks at the
    given columns only: two terms that differ in case only keep the same
    rows; with a term that is not empty, no row passes when there is no
    column, and a row whose cells in the columns are all empty, missing,
    null, 0 or false never passes. *)
Theorem search_case_and_columns (R : list Row) (t t' : string) (C : list string) :
  (toLowerCase t = toLowerCase t' -> filteredData R t C = filteredData R t' C)
  /\ (t <> "" -> filteredData R t [] = [])
  /\ (t <> "" -> forall r,
        (forall col, In col C -> truthy (get r col) = false) ->
        ~ In r (filteredData R t C)).
Proof.
  split; [| split].
  - intros Hlow. unfold filteredData. apply filter_ext. intros r.
    unfold filter_callback, cell_matches. simpl. rewrite Hlow.
    destruct (String.eqb_spec t "") as [-> | Ht],
             (String.eqb_spec t' "") as [-> | Ht']; simpl; try reflexivity.
    + symmetry in Hlow. apply (proj1 (toLowerCase_empty t')) in Hlow. contradiction.
    + apply (proj1 (toLowerCase_empty t)) in Hlow. contradiction.
  - intros Ht. unfold filteredData, filter_callback. simpl.
    destruct (String.eqb_spec t "") as [-> | _]; [contradiction |]. simpl.
    induction R as [| r R IH]; simpl; [reflexivity | exact IH].
  - intros Ht r Hcells Hin. apply filteredData_In in Hin as [_ [Hin | Hin]];
      [contradiction |].
    destruct Hin as (col & Hcol & Hm). unfold cell_matches, or_else in Hm.
    rewrite (Hcells col Hcol) in Hm. simpl in Hm.
    apply includes_empty_l in Hm.
    apply (proj1 (toLowerCase_empty t)) in Hm. contradiction.
Qed.

Lemma search_case_and_columns_witness :
  let R : list Row := [ [("name", VStr "Anna"); ("qty", VNum 0)] ] in
  filteredData R "ANNA" ["name"] = filteredData R "anna" ["name"]
  /\ filteredData R "a" [] = []
  /\ ~ In [("name", VStr "Anna"); ("qty", VNum 0)] (filteredData R "0" ["qty"]).
Proof.
  intros R.
  pose proof (search_case_and_columns R "ANNA" "anna" ["name"]) as (H1 & _ & _).
  pose proof (search_case_and_columns R "a" "a" []) as (_ & H2 & _).
  pose proof (search_case_and_columns R "0" "0" ["qty"]) as (_ & _ & H3).
  split; [apply H1; reflexivity |]. split; [apply H2; discriminate |].
  apply H3; [discriminate |].
  intros col [<- | []]. reflexivity.
Defined.

(** ** Fetching *)

(** X13. In the fixture variant [fetchData] always ends with [loading]
    false and leaves the search term and the sort as they were; a failure
    of the host API is silent: the rows fall back to the fixture rows and
    [error] stays null, the only way to an error being an [onRefresh]
    callback that throws, which also puts the fixture rows back. *)
Theorem Fixture_fetchData_outcome (h : Host) (s : State) :
  let s' := run (Fixture.fetchData h) s in
  loading s' = false
  /\ searchTerm s' = searchTerm s /\ sortConfig s' = sortConfig s
  /\ match onRefresh h with
     | Some (Rejects e) =>
         error s' = Some (error_text e) /\ allRows s' = Fixture.dummyData
     | _ => error s' = None
     end
  /\ (match API h with
      | None => True
      | Some api => exists e e', searchTable api = Rejects e
                                 /\ fetchDatasource api = Rejects e'
      end -> allRows s' = Fixture.dummyData).
Proof.
  destruct h as [ds tbl api cb].
  destruct cb as [[[] | e] |];
    destruct ds; destruct tbl as [[sch |] |];
    destruct api as [[[[[r |] [d |] | l |] | e1] [[[r' |] [d' |] | l' |] | e2] td] |];
    cbv zeta; simpl API; simpl onRefresh;
    (split; [reflexivity |]); (split; [reflexivity |]); (split; [reflexivity |]);
    (split; [first [reflexivity | split; reflexivity] |]);
    try (intros _; reflexivity);
    intros (e0 & e0' & H1 & H2); simpl in H1, H2; try discriminate; reflexivity.
Qed.

Lemma Fixture_fetchData_outcome_witness :
  let failure : Error := {| message := "Network error" |} in
  let h : Host :=
    {| datasource := true; table := None;
       API := Some {| searchTable := Rejects failure;
                      fetchDatasource := Rejects failure;
                      fetchTableDefinition := Rejects failure |};
       onRefresh := None |} in
  allRows (run (Fixture.fetchData h) initial) = Fixture.dummyData
  /\ error (run (Fixture.fetchData h) initial) = None.
Proof.
  intros failure h.
  destruct (Fixture_fetchData_outcome h initial) as (_ & _ & _ & Herr & Hrows).
  split; [| exact Herr].
  apply Hrows. simpl. now exists failure, failure.
Defined.



(** ** Columns and labels *)

(** X15. The columns derived from a schema never contain a relational or
    attachment-typed field, and in the API variant no field whose name
    starts with an underscore either (the provider variant keeps those); a
    list of columns given by the caller is used as it is, unfiltered. *)
Theorem derived_columns_exclude (tableSchema : Schema) (c : string) :
  (In c (Api.availableColumns [] tableSchema) ->
     In c (map fst tableSchema)
     /\ getColumnType tableSchema c <> "link"
     /\ getColumnType tableSchema c <> "attachment"
     /\ String.prefix "_" c = false)
  /\ (In c (Provider.columns_of tableSchema) ->
     In c (map fst tableSchema)
     /\ getColumnType tableSchema c <> "link"
     /\ getColumnType tableSchema c <> "attachment")
  /\ (forall c0 cs, Api.availableColumns (c0 :: cs) tableSchema = c0 :: cs).
Proof.
  assert (Htype : forall t : string,
            String.eqb (getColumnType_raw tableSchema c) t = false ->
            t <> "text" -> getColumnType tableSchema c <> t).
  { intros t Hraw Ht. apply String.eqb_neq in Hraw.
    unfold getColumnType, getColumnType_raw in *.
    destruct (schema_get tableSchema c) as [[[ty |] nm] |]; try congruence.
    destruct (String.eqb_spec ty ""); congruence. }
  split; [| split; [| reflexivity]].
  - unfold Api.availableColumns. simpl. rewrite filter_In.
    intros (Hin & Hf). apply andb_true_iff in Hf as [Hf Hu].
    apply andb_true_iff in Hf as [Hl Ha].
    rewrite negb_true_iff in Hl, Ha, Hu.
    repeat split; try assumption; apply Htype; try assumption; discriminate.
  - unfold Provider.columns_of. rewrite filter_In.
    intros (Hin & Hf). apply andb_true_iff in Hf as [Hl Ha].
    rewrite negb_true_iff in Hl, Ha.
    repeat split; try assumption; apply Htype; try assumption; discriminate.
Qed.

Lemma derived_columns_exclude_witness :
  let sch : Schema :=
    [ ("name", {| type := Some "text"; name := None |});
      ("owner", {| type := Some "link"; name := None |});
      ("_rev", {| type := Some "text"; name := None |}) ] in
  Api.availableColumns [] sch = ["name"]
  /\ Provider.columns_of sch = ["name"; "_rev"]
  /\ getColumnType sch "name" <> "link".
Proof.
  intros sch. split; [reflexivity |]. split; [reflexivity |].
  apply (proj1 (derived_columns_exclude sch "name")). simpl. now left.
Defined.

Lemma remove_blanks_space_capitals (s : string) :
  remove_blanks (space_capitals s) = remove_blanks s.
Proof.
  induction s as [| c s IH]; [reflexivity |].
  simpl. destruct (is_capital c); simpl; rewrite IH; reflexivity.
Qed.

(** X16. A column label is the name the schema gives, when it gives one
    that is not empty; otherwise it is derived from the column key, and the
    derived label spells the key: it starts with the first letter of the key
    in upper case, and taking the blanks out of it gives what taking them
    out of the key with its first letter in upper case gives, which is the
    label of the provider variant.  A key with no capital after its first
    letter gets the same label in both variants. *)
Theorem getColumnLabel_spells_key (tableSchema : Schema) (column : string) :
  (forall t n, schema_get tableSchema column = Some {| type := t; name := Some n |} ->
     n <> "" -> getColumnLabel tableSchema column = n)
  /\ remove_blanks (getColumnLabel tableSchema column)
     = remove_blanks (Provider.getColumnLabel tableSchema column)
  /\ (space_capitals (match column with
                      | EmptyString => EmptyString
                      | String _ rest => rest
                      end)
      = match column with EmptyString => EmptyString | String _ rest => rest end ->
      getColumnLabel tableSchema column = Provider.getColumnLabel tableSchema column).
Proof.
  unfold getColumnLabel, Provider.getColumnLabel, derived_label.
  split; [| split].
  - intros t n -> Hn. simpl.
    destruct (String.eqb_spec n "") as [-> | _]; [contradiction | reflexivity].
  - destruct (schema_get tableSchema column) as [[t [n |]] |];
      try destruct (truthy (VStr n)); try reflexivity;
      destruct column as [| c rest]; try reflexivity;
      simpl; rewrite remove_blanks_space_capitals; reflexivity.
  - intros Hcaps.
    destruct (schema_get tableSchema column) as [[t [n |]] |];
      try destruct (truthy (VStr n)); try reflexivity;
      destruct column as [| c rest]; try reflexivity; now rewrite Hcaps.
Qed.

Lemma getColumnLabel_spells_key_witness :
  getColumnLabel [] "firstName" = "First Name"
  /\ getColumnLabel [("dob", {| type := None; name := Some "Date of birth" |})] "dob"
     = "Date of birth"
  /\ getColumnLabel [] "email" = Provider.getColumnLabel [] "email".
Proof.
  split; [reflexivity |]. split.
  - apply (proj1 (getColumnLabel_spells_key
                    [("dob", {| type := None; name := Some "Date of birth" |})] "dob")
             None "Date of birth"); [reflexivity | discriminate].
  - apply (proj2 (proj2 (getColumnLabel_spells_key [] "email"))). reflexivity.
Defined.

(** ** Select-all in the three variants *)

(** X17. In each of the three variants, after a click on select-all with
    selection enabled every selected identity is the identity of a row of
    the current page: nothing selected on another page survives the click,
    and on an empty page the click empties the selection. *)
Theorem select_all_within_page (S : gset value) (P : list Row) (i : value) :
  (i ∈ Fixture.handleSelectAll true S P ->
     exists row, In row P /\ Fixture.getRowId row = i)
  /\ (i ∈ Api.handleSelectAll true S P ->
     exists row, In row P /\ Api.selectAll_id row = i)
  /\ (i ∈ Provider.handleSelectAll true S P ->
     exists row, In row P /\ Provider.row_id row = i)
  /\ Fixture.handleSelectAll true S [] = ∅
  /\ Api.handleSelectAll true S [] = ∅
  /\ Provider.handleSelectAll true S [] = ∅.
Proof.
  assert (Hmem : forall (f : Row -> value),
            i ∈ (list_to_set (map f P) : gset value) ->
            exists row, In row P /\ f row = i).
  { intros f Hin. apply elem_of_list_to_set, list_elem_of_In, in_map_iff in Hin.
    destruct Hin as (row & H1 & H2). now exists row. }
  unfold Fixture.handleSelectAll, Api.handleSelectAll, Provider.handleSelectAll.
  simpl negb. cbv iota.
  split; [| split; [| split; [| split; [| split]]]].
  - destruct ((size S =? length P)%nat && (0 <? length P)%nat);
      [set_solver | apply Hmem].
  - destruct ((size S =? length P)%nat && (0 <? length P)%nat);
      [set_solver | apply Hmem].
  - destruct (size S =? length P)%nat; [set_solver | apply Hmem].
  - simpl. now rewrite andb_false_r.
  - simpl. now rewrite andb_false_r.
  - simpl. now destruct (size S =? 0)%nat.
Qed.

Lemma select_all_within_page_witness :
  let S : gset value := {[ VStr "x"; VStr "y" ]} in
  let P : list Row := [ [("_id", VStr "a")] ] in
  exists row, In row P /\ Provider.row_id row = VStr "a".
Proof.
  intros S P.
  apply (proj1 (proj2 (proj2 (select_all_within_page S P (VStr "a"))))).
  vm_compute. reflexivity.
Defined.
